(** * Climate-financial risk engine of risk_premium_2026: a shallow embedding

    Python floats are modelled as exact rationals [Q]: every literal of the
    source ([0.05], [8760], [1e6], ...) is the rational it denotes, and the
    arithmetic is exact.  Statements are therefore about the real-number
    semantics of the code, not about IEEE rounding.  Python's [round] on a
    float is round-half-to-even, which is what [py_round] computes. *)

From Stdlib Require Import QArith Qpower Qround Qabs Qminmax Lqa Lia ZArith List String Ascii Bool.
From Stdlib Require DecimalString Sorted.
Import ListNotations.
Open Scope Q_scope.

(** Strict comparison as a boolean, [a < b]. *)
Definition qlt (a b : Q) : bool := negb (Qle_bool b a).
(** [a <= b] as a boolean. *)
Definition qle (a b : Q) : bool := Qle_bool a b.

(** Python's built-in [round] on a float: to the nearest integer, ties to
    the even neighbour. *)
Definition py_round (q : Q) : Z :=
  let fl := Qfloor q in
  let frac := q - inject_Z fl in
  if qlt frac (1 # 2) then fl
  else if qlt (1 # 2) frac then (fl + 1)%Z
  else if Z.even fl then fl else (fl + 1)%Z.

(* ------------------------------------------------------------------ *)
(** ** src/risk/credit_rating.py *)

Module CreditRating.

(** [class Rating(Enum)]: AAA = 1 ... D = 10. *)
Inductive Rating := AAA | AA | A | BBB | BB | B | CCC | CC | C | D.

(** [Rating.value] (also [numeric_score]). *)
Definition value (r : Rating) : Z :=
  match r with
  | AAA => 1 | AA => 2 | A => 3 | BBB => 4 | BB => 5
  | B => 6 | CCC => 7 | CC => 8 | C => 9 | D => 10
  end.

(** [Rating.name], which is also [str(rating)]. *)
Definition name (r : Rating) : string :=
  match r with
  | AAA => "AAA" | AA => "AA" | A => "A" | BBB => "BBB" | BB => "BB"
  | B => "B" | CCC => "CCC" | CC => "CC" | C => "C" | D => "D"
  end.

(** [Rating(n)]: the enum lookup by value; [None] is the [ValueError]
    Python raises for a value that is not a member. *)
Definition Rating_of_Z (n : Z) : option Rating :=
  match n with
  | 1%Z => Some AAA | 2%Z => Some AA | 3%Z => Some A | 4%Z => Some BBB
  | 5%Z => Some BB | 6%Z => Some B | 7%Z => Some CCC | 8%Z => Some CC
  | 9%Z => Some C | 10%Z => Some D | _ => None
  end.

(** [Rating.is_distressed]. *)
Definition is_distressed (r : Rating) : bool := (7 <=? value r)%Z.

(** [@dataclass RatingMetrics]. *)
Record RatingMetrics := {
  capacity_mw : Q;
  ebitda_to_fixed_assets : Q;
  ebitda_to_interest : Q;
  net_debt_to_ebitda : Q;
  debt_to_equity : Q;
  debt_to_assets : Q;
  dscr : Q;
  is_ebitda_negative : bool;
  consecutive_loss_years : Z
}.

Definition rate_capacity (capacity_mw : Q) : Rating :=
  if qle 2000 capacity_mw then AAA
  else if qle 800 capacity_mw then AA
  else if qle 400 capacity_mw then A
  else if qle 100 capacity_mw then BBB
  else if qle 20 capacity_mw then BB
  else B.

Definition rate_profitability (ebitda_to_fixed_assets : Q) (is_negative : bool) : Rating :=
  if is_negative || qlt ebitda_to_fixed_assets (-20) then CC
  else if qlt ebitda_to_fixed_assets (-10) then CCC
  else if qlt ebitda_to_fixed_assets 0 then B
  else if qle 15 ebitda_to_fixed_assets then AAA
  else if qle 11 ebitda_to_fixed_assets then AA
  else if qle 8 ebitda_to_fixed_assets then A
  else if qle 4 ebitda_to_fixed_assets then BBB
  else if qle 1 ebitda_to_fixed_assets then BB
  else B.

Definition rate_coverage (ebitda_to_interest : Q) : Rating :=
  if qlt ebitda_to_interest (-5) then D
  else if qlt ebitda_to_interest (-2) then C
  else if qlt ebitda_to_interest 0 then CC
  else if qlt ebitda_to_interest (1 # 2) then CCC
  else if qle 12 ebitda_to_interest then AAA
  else if qle 6 ebitda_to_interest then AA
  else if qle 4 ebitda_to_interest then A
  else if qle 2 ebitda_to_interest then BBB
  else if qle 1 ebitda_to_interest then BB
  else B.

Definition rate_dscr (dscr : Q) : Rating :=
  if qlt dscr 0 then D
  else if qlt dscr (1 # 2) then C
  else if qlt dscr (8 # 10) then CC
  else if qlt dscr 1 then CCC
  else if qle (25 # 10) dscr then AAA
  else if qle 2 dscr then AA
  else if qle (16 # 10) dscr then A
  else if qle (13 # 10) dscr then BBB
  else if qle (11 # 10) dscr then BB
  else B.

Definition rate_net_debt_leverage (net_debt_to_ebitda : Q) (is_ebitda_negative : bool) : Rating :=
  if is_ebitda_negative then CC
  else if qlt net_debt_to_ebitda 0 then AAA
  else if qlt 20 net_debt_to_ebitda then CCC
  else if qle net_debt_to_ebitda 1 then AAA
  else if qle net_debt_to_ebitda 4 then AA
  else if qle net_debt_to_ebitda 7 then A
  else if qle net_debt_to_ebitda 10 then BBB
  else if qle net_debt_to_ebitda 12 then BB
  else B.

Definition rate_equity_leverage (debt_to_equity : Q) : Rating :=
  if qle debt_to_equity 80 then AAA
  else if qle debt_to_equity 150 then AA
  else if qle debt_to_equity 250 then A
  else if qle debt_to_equity 300 then BBB
  else if qle debt_to_equity 400 then BB
  else B.

Definition rate_asset_leverage (debt_to_assets : Q) : Rating :=
  if qle debt_to_assets 20 then AAA
  else if qle debt_to_assets 40 then AA
  else if qle debt_to_assets 60 then A
  else if qle debt_to_assets 80 then BBB
  else if qle debt_to_assets 90 then BB
  else B.

(** The [component_ratings] dict of [assess_credit_rating], one field per key. *)
Record ComponentRatings := {
  cr_capacity : Rating;
  cr_profitability : Rating;
  cr_coverage : Rating;
  cr_dscr : Rating;
  cr_net_debt_leverage : Rating;
  cr_equity_leverage : Rating;
  cr_asset_leverage : Rating
}.

(** [@dataclass RatingAssessment]. *)
Record RatingAssessment := {
  overall_rating : Rating;
  component_ratings : ComponentRatings;
  metrics : RatingMetrics;
  rating_rationale : string
}.

(** The [weights] dict, in its insertion order, paired with the component
    each key selects. *)
Definition weights (c : ComponentRatings) : list (Rating * Q) :=
  [ (cr_capacity c, 5 # 100);
    (cr_profitability c, 10 # 100);
    (cr_coverage c, 15 # 100);
    (cr_dscr c, 35 # 100);
    (cr_net_debt_leverage c, 15 # 100);
    (cr_equity_leverage c, 10 # 100);
    (cr_asset_leverage c, 10 # 100) ].

(** [sum(component_ratings[metric].value * weight for metric, weight in weights.items())]. *)
Definition weighted_score (c : ComponentRatings) : Q :=
  fold_left (fun acc '(r, w) => acc + inject_Z (value r) * w) (weights c) 0.

(** [max(distress_ratings, key=lambda r: r.value)] on a non-empty list:
    the first element of greatest value. *)
Definition max_by_value (r0 : Rating) (rs : list Rating) : Rating :=
  fold_left (fun best r => if (value best <? value r)%Z then r else best) rs r0.

(** [is_ebitda_negative = metrics.is_ebitda_negative or metrics.ebitda_to_fixed_assets < 0]. *)
Definition ebitda_negative (m : RatingMetrics) : bool :=
  is_ebitda_negative m || qlt (ebitda_to_fixed_assets m) 0.

(** The [component_ratings] dict built at the start of [assess_credit_rating]. *)
Definition components (m : RatingMetrics) : ComponentRatings :=
  let is_neg := ebitda_negative m in
  {| cr_capacity := rate_capacity (capacity_mw m);
     cr_profitability := rate_profitability (ebitda_to_fixed_assets m) is_neg;
     cr_coverage := rate_coverage (ebitda_to_interest m);
     cr_dscr := rate_dscr (dscr m);
     cr_net_debt_leverage := rate_net_debt_leverage (net_debt_to_ebitda m) is_neg;
     cr_equity_leverage := rate_equity_leverage (debt_to_equity m);
     cr_asset_leverage := rate_asset_leverage (debt_to_assets m) |}.

(** [critical_metrics = ["dscr", "coverage", "profitability"]], looked up. *)
Definition critical_ratings (c : ComponentRatings) : list Rating :=
  [cr_dscr c; cr_coverage c; cr_profitability c].

Definition assess_credit_rating (m : RatingMetrics) : option RatingAssessment :=
  let comps := components m in
  let rounded_score := py_round (weighted_score comps) in
  let rounded_score := Z.max 1 (Z.min 10 rounded_score) in
  let distress_ratings := filter (fun r => (7 <=? value r)%Z) (critical_ratings comps) in
  match distress_ratings with
  | r0 :: rs =>
      let worst_distress := max_by_value r0 rs in
      let rounded_score := Z.max rounded_score (value worst_distress) in
      match Rating_of_Z rounded_score with
      | None => None
      | Some overall =>
          Some {| overall_rating := overall; component_ratings := comps; metrics := m;
                  rating_rationale :=
                    "Overall " ++ name overall ++ ": Distress-driven rating "
                    ++ "(critical metric in distress: " ++ name worst_distress ++ ")" |}
      end
  | [] =>
      match Rating_of_Z rounded_score with
      | None => None
      | Some overall =>
          Some {| overall_rating := overall; component_ratings := comps; metrics := m;
                  rating_rationale :=
                    "Overall " ++ name overall ++ ": Weighted average "
                    ++ "(DSCR=" ++ name (cr_dscr comps) ++ ", Coverage="
                    ++ name (cr_coverage comps) ++ ")" |}
      end
  end%string.

(** [Rating.to_spread_bps]: the [spread_map] dict. *)
Definition to_spread_bps (r : Rating) : Q :=
  match r with
  | AAA => 50 | AA => 100 | A => 150 | BBB => 250 | BB => 400
  | B => 600 | CCC => 900 | CC => 1500 | C => 2500 | D => 5000
  end.

(** [Rating.is_investment_grade]. *)
Definition is_investment_grade (r : Rating) : bool := (value r <=? 4)%Z.

(** [calculate_rating_metrics_from_financials]; the optional arguments
    [dscr], [total_debt_service] and [cfads] (default [None]) are options. *)
Definition calculate_rating_metrics_from_financials
  (capacity_mw ebitda fixed_assets interest_expense total_debt
   cash_and_equivalents total_equity total_assets : Q)
  (dscr total_debt_service cfads : option Q) (consecutive_loss_years : Z)
  : RatingMetrics :=
  let is_ebitda_negative := qlt ebitda 0 in
  let ebitda_to_fixed_assets :=
    if qlt 0 fixed_assets then ebitda / fixed_assets * 100 else 0 in
  let ebitda_to_interest :=
    if qlt 0 interest_expense then ebitda / interest_expense
    else if qle 0 ebitda then 999 else -999 in
  let net_debt := total_debt - cash_and_equivalents in
  let net_debt_to_ebitda :=
    if is_ebitda_negative then (if qlt 0 net_debt then 999 else -999)
    else if qlt 0 ebitda then net_debt / ebitda
    else 999 in
  let debt_to_equity :=
    if qlt 0 total_equity then total_debt / total_equity * 100 else 999 in
  let debt_to_assets :=
    if qlt 0 total_assets then total_debt / total_assets * 100 else 100 in
  let calculated_dscr :=
    match dscr with
    | Some d => d
    | None =>
        match total_debt_service with
        | Some tds =>
            if qlt 0 tds then
              match cfads with
              | Some cf => cf / tds
              | None => if qlt 0 ebitda then ebitda / tds else ebitda / tds
              end
            else if qlt 0 interest_expense then
              let estimated_debt_service := interest_expense * (15 # 10) in
              if qlt 0 estimated_debt_service then ebitda / estimated_debt_service else 0
            else if qlt ebitda_to_interest 100 then ebitda_to_interest else 2
        | None =>
            if qlt 0 interest_expense then
              let estimated_debt_service := interest_expense * (15 # 10) in
              if qlt 0 estimated_debt_service then ebitda / estimated_debt_service else 0
            else if qlt ebitda_to_interest 100 then ebitda_to_interest else 2
        end
    end in
  {| capacity_mw := capacity_mw;
     ebitda_to_fixed_assets := ebitda_to_fixed_assets;
     ebitda_to_interest := ebitda_to_interest;
     dscr := calculated_dscr;
     net_debt_to_ebitda := net_debt_to_ebitda;
     debt_to_equity := debt_to_equity;
     debt_to_assets := debt_to_assets;
     is_ebitda_negative := is_ebitda_negative;
     consecutive_loss_years := consecutive_loss_years |}.

(** [str(n)] for an [int]. *)
Definition str_int (n : Z) : string := DecimalString.NilZero.string_of_int (Z.to_int n).

(** The [component_ratings] dict as its [items()], in insertion order. *)
Definition component_items (c : ComponentRatings) : list (string * Rating) :=
  [("capacity", cr_capacity c); ("profitability", cr_profitability c);
   ("coverage", cr_coverage c); ("dscr", cr_dscr c);
   ("net_debt_leverage", cr_net_debt_leverage c);
   ("equity_leverage", cr_equity_leverage c);
   ("asset_leverage", cr_asset_leverage c)]%string.

(** [max(items, key=lambda x: x[1])] on a non-empty list: the first item
    of greatest second component. *)
Definition max_by_snd (x0 : string * Z) (xs : list (string * Z)) : string * Z :=
  fold_left (fun best x => if (snd best <? snd x)%Z then x else best) xs x0.

(** The dict returned by [rating_migration_analysis]. *)
Record MigrationAnalysis := {
  ma_baseline_rating : string;
  ma_risk_rating : string;
  ma_migration : string;
  ma_notch_change : Z;
  ma_spread_increase_bps : Q;
  ma_worst_deteriorating_metric : string;
  ma_worst_deterioration_notches : Z;
  ma_metric_changes : list (string * Z)
}.

(** The [metric_changes] dict of [rating_migration_analysis]: for every key
    of the baseline components, the risk value minus the baseline value
    (both dicts have the same keys in the same order). *)
Definition metric_changes (baseline risk : ComponentRatings) : list (string * Z) :=
  map (fun '((k, rb), (_, rr)) => (k, (value rr - value rb)%Z))
      (combine (component_items baseline) (component_items risk)).

Definition rating_migration_analysis (baseline_rating risk_rating : RatingAssessment)
  : MigrationAnalysis :=
  let notch_change := (value (overall_rating risk_rating)
                       - value (overall_rating baseline_rating))%Z in
  let spread_change := to_spread_bps (overall_rating risk_rating)
                       - to_spread_bps (overall_rating baseline_rating) in
  let migration :=
    (if (notch_change =? 0)%Z then "No Change"
     else if (0 <? notch_change)%Z then "Downgrade by " ++ str_int notch_change ++ " notch(es)"
     else "Upgrade by " ++ str_int (Z.abs notch_change) ++ " notch(es)")%string in
  let changes := metric_changes (component_ratings baseline_rating)
                                (component_ratings risk_rating) in
  (* the dict has seven entries, so the empty case does not occur *)
  let worst_metric := match changes with
                      | x0 :: xs => max_by_snd x0 xs
                      | [] => (""%string, 0%Z)
                      end in
  {| ma_baseline_rating := name (overall_rating baseline_rating);
     ma_risk_rating := name (overall_rating risk_rating);
     ma_migration := migration;
     ma_notch_change := notch_change;
     ma_spread_increase_bps := spread_change;
     ma_worst_deteriorating_metric := fst worst_metric;
     ma_worst_deterioration_notches := snd worst_metric;
     ma_metric_changes := changes |}%string.

(** [calculate_crp_from_ratings]. *)
Definition calculate_crp_from_ratings (baseline_rating scenario_rating : Rating)
  (risk_free_rate debt_fraction baseline_equity_rate : Q) : Q :=
  let equity_fraction := 1 - debt_fraction in
  let baseline_debt_rate := risk_free_rate + to_spread_bps baseline_rating / 10000 in
  let scenario_debt_rate := risk_free_rate + to_spread_bps scenario_rating / 10000 in
  let equity_premium_per_notch := 5 # 1000 in
  let notch_diff := (value scenario_rating - value baseline_rating)%Z in
  let scenario_equity_rate :=
    baseline_equity_rate + inject_Z notch_diff * equity_premium_per_notch in
  let wacc_baseline :=
    debt_fraction * baseline_debt_rate + equity_fraction * baseline_equity_rate in
  let wacc_scenario :=
    debt_fraction * scenario_debt_rate + equity_fraction * scenario_equity_rate in
  (wacc_scenario - wacc_baseline) * 10000.

(** [get_counterfactual_baseline_rating]. *)
Definition get_counterfactual_baseline_rating : Rating := A.

(** The dict returned by [assess_rating_with_counterfactual]. *)
Record CounterfactualAssessment := {
  ca_counterfactual_rating : string;
  ca_counterfactual_spread_bps : Q;
  ca_scenario_rating : string;
  ca_scenario_spread_bps : Q;
  ca_rating_migration : string;
  ca_notch_change : Z;
  ca_crp_bps : Q;
  ca_scenario_assessment : RatingAssessment;
  ca_is_investment_grade : bool;
  ca_is_distressed : bool
}.

(** [assess_rating_with_counterfactual]; [None] for the optional
    [counterfactual_rating] is the default. *)
Definition assess_rating_with_counterfactual (scenario_metrics : RatingMetrics)
  (counterfactual_rating : option Rating) : option CounterfactualAssessment :=
  let counterfactual_rating :=
    match counterfactual_rating with
    | None => get_counterfactual_baseline_rating
    | Some r => r
    end in
  match assess_credit_rating scenario_metrics with
  | None => None
  | Some scenario_assessment =>
      let sr := overall_rating scenario_assessment in
      let crp_bps := calculate_crp_from_ratings counterfactual_rating sr
                       (3 # 100) (70 # 100) (12 # 100) in
      let notch_change := (value sr - value counterfactual_rating)%Z in
      let migration_desc :=
        if (notch_change =? 0)%Z then "No change"
        else if (0 <? notch_change)%Z then "Downgrade by " ++ str_int notch_change ++ " notch(es)"
        else "Upgrade by " ++ str_int (Z.abs notch_change) ++ " notch(es)" in
      Some {| ca_counterfactual_rating := name counterfactual_rating;
              ca_counterfactual_spread_bps := to_spread_bps counterfactual_rating;
              ca_scenario_rating := name sr;
              ca_scenario_spread_bps := to_spread_bps sr;
              ca_rating_migration := migration_desc;
              ca_notch_change := notch_change;
              ca_crp_bps := crp_bps;
              ca_scenario_assessment := scenario_assessment;
              ca_is_investment_grade := is_investment_grade sr;
              ca_is_distressed := is_distressed sr |}
  end%string.

End CreditRating.

(* ------------------------------------------------------------------ *)
(** ** src/financials/cashflow.py and src/financials/metrics.py *)

Module CashFlow.

(** A plant-parameter dict ([Dict[str, Any]]) with numeric values, as an
    association list; keys are unique, as in a dict. *)
Definition Params := list (string * Q).

(** [float(plant_params.get(key, default))]. *)
Fixpoint pget (d : Params) (key : string) (default : Q) : Q :=
  match d with
  | [] => default
  | (k, v) :: d' => if String.eqb k key then v else pget d' key default
  end.

(** [int(x)] on a float: truncation toward zero. *)
Definition py_int (q : Q) : Z := Z.quot (Qnum q) (Zpos (Qden q)).

(** [compute_cashflows_timeseries] only calls
    [transition_scenario.get_carbon_price(year)]; the scenario object is
    represented by that method, so every statement below holds for every
    transition scenario. *)
Record TransitionScenario := { get_carbon_price : Z -> Q }.

(** [@dataclass TransitionAdjustments] (src/risk/transition.py).  A
    negative [operating_years] makes [np.full] raise; the count is a [nat]. *)
Record TransitionAdjustments := {
  capacity_factor : Q;
  operating_years : nat
}.

(** [@dataclass PhysicalAdjustments] (src/risk/physical.py). *)
Record PhysicalAdjustments := {
  outage_rate : Q;
  capacity_derate : Q;
  efficiency_loss : Q;
  water_constrained_capacity : Q
}.

(** [@dataclass MarketScenario] (src/scenarios/market.py). *)
Record MarketScenario := {
  demand_growth_pct : Q;
  price_sensitivity : Q;
  base_power_price : Q
}.

Definition get_demand_factor (ms : MarketScenario) (year base_year : Z) : Q :=
  let years_elapsed := (year - base_year)%Z in
  (1 + demand_growth_pct ms / 100) ^ years_elapsed.

Definition get_power_price (ms : MarketScenario) (year base_year : Z) : Q :=
  let demand_factor := get_demand_factor ms year base_year in
  let demand_change_pct := (demand_factor - 1) * 100 in
  let price_change_pct := demand_change_pct * price_sensitivity ms in
  let price_factor := 1 + price_change_pct / 100 in
  base_power_price ms * price_factor.

(** [numpy_financial.pmt(rate, nper, pv)] with [fv = 0] and
    [when = 'end']: [-(fv + pv*temp) / fact] where [temp = (1+rate)**nper]
    and [fact = (1 + rate*when)*(temp - 1)/rate] ([nper] when [rate == 0]). *)
Definition npf_pmt (rate : Q) (nper : Z) (pv : Q) : Q :=
  let temp := (1 + rate) ^ nper in
  let fact := if Qeq_bool rate 0 then inject_Z nper
              else (1 + rate * 0) * (temp - 1) / rate in
  - (0 + pv * temp) / fact.

(** Element-wise numpy binary operation on equal-length arrays. *)
Fixpoint vzip (f : Q -> Q -> Q) (xs ys : list Q) : list Q :=
  match xs, ys with
  | x :: xs', y :: ys' => f x y :: vzip f xs' ys'
  | _, _ => []
  end.

Definition vadd := vzip Qplus.
Definition vsub := vzip Qminus.
Definition vmul := vzip Qmult.

(** [arr[i] = v] on a numpy array, for an index in range. *)
Fixpoint list_set (xs : list Q) (i : nat) (v : Q) : list Q :=
  match xs, i with
  | [], _ => []
  | _ :: xs', O => v :: xs'
  | x :: xs', S i' => x :: list_set xs' i' v
  end.

(** [@dataclass CashFlowTimeSeries]: one array per field. *)
Record CashFlowTimeSeries := {
  years : list Z;
  revenue : list Q;
  fuel_costs : list Q;
  variable_opex : list Q;
  fixed_opex : list Q;
  carbon_costs : list Q;
  outage_costs : list Q;
  total_costs : list Q;
  ebitda : list Q;
  depreciation : list Q;
  ebit : list Q;
  interest_expense : list Q;
  tax_expense : list Q;
  net_income : list Q;
  capex : list Q;
  free_cash_flow : list Q;
  cf_capacity_factor : list Q
}.

(** The interest loop of step 4: [(interest_expense, balance)] after the
    iterations [i] in [idx]. *)
Definition interest_loop (debt_interest annual_ds : Q) (idx : list nat)
    (st : list Q * Q) : list Q * Q :=
  fold_left (fun '(ie, balance) i =>
      let interest := balance * debt_interest in
      let principal := annual_ds - interest in
      let ie := list_set ie i interest in
      let balance := balance - principal in
      let balance := if qlt balance 0 then 0 else balance in
      (ie, balance)) idx st.

(** [compute_cashflows_timeseries]; [None] is the [ZeroDivisionError] of
    [total_capex / useful_life] when [useful_life] is [0]. *)
Definition compute_cashflows_timeseries (plant_params : Params)
    (transition_scenario : TransitionScenario)
    (transition_adj : TransitionAdjustments)
    (physical_adj : PhysicalAdjustments)
    (market_scenario : option MarketScenario)
    (start_year : Z) : option CashFlowTimeSeries :=
  let capacity_mw := pget plant_params "capacity_mw" 2000 in
  let price := pget plant_params "power_price_per_mwh" 80 in
  let heat_rate := pget plant_params "heat_rate_mmbtu_mwh" (95 # 10) in
  let fuel_price := pget plant_params "fuel_price_per_mmbtu" (32 # 10) in
  let fixed_opex_per_kw := pget plant_params "fixed_opex_per_kw_year" 42 in
  let variable_opex_per_mwh := pget plant_params "variable_opex_per_mwh" (45 # 10) in
  let emissions_rate := pget plant_params "emissions_tCO2_per_mwh" (95 # 100) in
  let total_capex := pget plant_params "total_capex_million" 3200 * 1000000 in
  let useful_life := py_int (pget plant_params "useful_life" 30) in
  let tax_rate := pget plant_params "tax_rate" (24 # 100) in
  let debt_fraction := pget plant_params "debt_fraction" (70 # 100) in
  let debt_interest := pget plant_params "debt_interest_rate" (5 # 100) in
  let debt_tenor := py_int (pget plant_params "debt_tenor_years" 20) in
  let n_years := operating_years transition_adj in
  let years := map (fun k => (start_year + Z.of_nat k)%Z) (seq 0 n_years) in
  let base_cf := capacity_factor transition_adj in
  let base_cf_series :=
    match market_scenario with
    | Some ms => map (fun y => Qmin 1 (base_cf * get_demand_factor ms y start_year)) years
    | None => repeat base_cf n_years
    end in
  let cf_series := map (fun c => c * (1 - capacity_derate physical_adj)) base_cf_series in
  let water_cap := water_constrained_capacity physical_adj in
  let cf_series := map (fun c => Qmin c water_cap) cf_series in
  let cf_series := map (fun c => Qmax c 0) cf_series in
  let annual_mwh := map (fun c => capacity_mw * 8760 * c) cf_series in
  let prices :=
    match market_scenario with
    | Some ms => map (fun y => get_power_price ms y start_year) years
    | None => repeat price n_years
    end in
  let revenue := vmul annual_mwh prices in
  let carbon_prices := map (get_carbon_price transition_scenario) years in
  let fuel_costs := map (fun g => g * heat_rate * fuel_price) annual_mwh in
  let variable_opex := map (fun g => g * variable_opex_per_mwh) annual_mwh in
  let fixed_opex := repeat (capacity_mw * 1000 * fixed_opex_per_kw) n_years in
  let carbon_costs := vmul (map (fun g => g * emissions_rate) annual_mwh) carbon_prices in
  let outage_costs := map (fun g => g * outage_rate physical_adj * price) annual_mwh in
  let total_costs :=
    vadd (vadd (vadd (vadd fuel_costs variable_opex) fixed_opex) carbon_costs) outage_costs in
  let ebitda := vsub revenue total_costs in
  if (useful_life =? 0)%Z then None else
  let annual_depreciation := total_capex / inject_Z useful_life in
  let depreciation := repeat annual_depreciation n_years in
  let ebit := vsub ebitda depreciation in
  let debt_amount := total_capex * debt_fraction in
  let interest_expense := repeat 0 n_years in
  let balance := debt_amount in
  let interest_expense :=
    if qlt 0 debt_interest && (0 <? debt_tenor)%Z then
      let annual_ds := - npf_pmt debt_interest debt_tenor debt_amount in
      fst (interest_loop debt_interest annual_ds
             (seq 0 (Nat.min n_years (Z.to_nat debt_tenor))) (interest_expense, balance))
    else interest_expense in
  let taxable_income := vsub ebit interest_expense in
  let tax_expense := map (fun t => Qmax 0 (t * tax_rate)) taxable_income in
  let net_income := vsub (vsub ebit interest_expense) tax_expense in
  let nopat := map (fun e => e * (1 - tax_rate)) ebit in
  let capex := repeat 0 n_years in
  let fcf := vsub (vadd nopat depreciation) capex in
  Some {| years := years; revenue := revenue; fuel_costs := fuel_costs;
          variable_opex := variable_opex; fixed_opex := fixed_opex;
          carbon_costs := carbon_costs; outage_costs := outage_costs;
          total_costs := total_costs; ebitda := ebitda; depreciation := depreciation;
          ebit := ebit; interest_expense := interest_expense;
          tax_expense := tax_expense; net_income := net_income; capex := capex;
          free_cash_flow := fcf; cf_capacity_factor := cf_series |}.

(** [@dataclass DebtStructure]. *)
Record DebtStructure := {
  debt_amount : Q;
  interest_rate : Q;
  tenor_years : Z;
  annual_debt_service : Q;
  principal_schedule : list Q;
  interest_schedule : list Q
}.

(** The amortization loop of [calculate_debt_service], from iteration [i]
    on, over [k] more iterations: fills [interest[i]] and [principal[i]]. *)
Fixpoint amortize (interest_rate annual_ds : Q) (k i : nat)
    (principal interest : list Q) (balance : Q) : list Q * list Q :=
  match k with
  | O => (principal, interest)
  | S k' =>
      let interest := list_set interest i (balance * interest_rate) in
      let principal := list_set principal i (annual_ds - balance * interest_rate) in
      let balance := balance - (annual_ds - balance * interest_rate) in
      amortize interest_rate annual_ds k' (S i) principal interest balance
  end.

Definition calculate_debt_service (total_capex debt_fraction interest_rate : Q)
    (tenor_years : Z) : DebtStructure :=
  let debt_amount := total_capex * debt_fraction in
  let annual_ds := - npf_pmt interest_rate tenor_years debt_amount in
  let n := Z.to_nat tenor_years in
  let '(principal, interest) :=
    amortize interest_rate annual_ds n 0 (repeat 0 n) (repeat 0 n) debt_amount in
  {| debt_amount := debt_amount; interest_rate := interest_rate;
     tenor_years := tenor_years; annual_debt_service := annual_ds;
     principal_schedule := principal; interest_schedule := interest |}.

(** [@dataclass CashFlowResult] of the legacy calculator. *)
Record CashFlowResult := {
  annual_revenue : Q;
  annual_costs : Q;
  cfr_ebitda : Q;
  cfr_free_cash_flow : Q;
  notes : string
}.

(** The legacy single-period [compute_cashflows]. *)
Definition compute_cashflows (plant_params : Params) (transition : TransitionAdjustments)
    (physical : PhysicalAdjustments) : CashFlowResult :=
  let capacity_mw := pget plant_params "capacity_mw" 2000 in
  let price := pget plant_params "power_price_per_mwh" 80 in
  let heat_rate := pget plant_params "heat_rate_mmbtu_mwh" (95 # 10) in
  let fuel_price := pget plant_params "fuel_price_per_mmbtu" (32 # 10) in
  let fixed_opex := pget plant_params "fixed_opex_per_kw_year" 42 in
  let variable_opex := pget plant_params "variable_opex_per_mwh" (45 # 10) in
  let cf := Qmax 0 (capacity_factor transition * (1 - capacity_derate physical)) in
  let annual_mwh := capacity_mw * 8760 * cf in
  let fuel_cost := annual_mwh * heat_rate * fuel_price in
  let variable_costs := annual_mwh * variable_opex in
  let fixed_costs := capacity_mw * 1000 * fixed_opex in
  let carbon_costs := annual_mwh * (95 # 100) * 50 in
  let outage_penalty := annual_mwh * outage_rate physical * price in
  let revenue := annual_mwh * price in
  let costs := fuel_cost + variable_costs + fixed_costs + carbon_costs + outage_penalty in
  let ebitda := revenue - costs in
  let fcf := ebitda in
  {| annual_revenue := revenue; annual_costs := costs; cfr_ebitda := ebitda;
     cfr_free_cash_flow := fcf;
     notes := "Legacy single-period; use compute_cashflows_timeseries instead." |}.

(** [numpy_financial.npv(rate, values)]: [sum(values / (1+rate)**arange(len(values)))],
    the first value undiscounted; [npv_from rate t vs] sums from exponent [t]. *)
Fixpoint npv_from (rate : Q) (t : nat) (values : list Q) : Q :=
  match values with
  | [] => 0
  | v :: vs => v / (1 + rate) ^ Z.of_nat t + npv_from rate (S t) vs
  end.

Definition npf_npv (rate : Q) (values : list Q) : Q := npv_from rate 0 values.

(** A float that is finite or [np.inf]. *)
Inductive ExtQ := Fin (q : Q) | PosInf.

(** [+] on such floats. *)
Definition ext_add (x y : ExtQ) : ExtQ :=
  match x, y with
  | Fin a, Fin b => Fin (a + b)
  | _, _ => PosInf
  end.

(** [min] on such floats. *)
Definition ext_min (x y : ExtQ) : ExtQ :=
  match x, y with
  | Fin a, Fin b => Fin (Qmin a b)
  | Fin a, PosInf => Fin a
  | PosInf, y => y
  end.

(** [np.mean] of a non-empty array. *)
Definition np_mean (xs : list ExtQ) : ExtQ :=
  match fold_left ext_add xs (Fin 0) with
  | Fin s => Fin (s / inject_Z (Z.of_nat (List.length xs)))
  | PosInf => PosInf
  end.

(** [np.min] of a non-empty array [x0 :: xs]. *)
Definition np_min (x0 : ExtQ) (xs : list ExtQ) : ExtQ := fold_left ext_min xs x0.

(** [np.where(np.cumsum(values) > 0)[0]], its first index plus one:
    [acc] is the running sum and [k] the index of the head. *)
Fixpoint first_positive_cumsum (acc : Q) (k : nat) (values : list Q) : option Z :=
  match values with
  | [] => None
  | v :: vs =>
      let acc := acc + v in
      if qlt 0 acc then Some (Z.of_nat k + 1)%Z
      else first_positive_cumsum acc (S k) vs
  end.

(** [@dataclass FinancialMetrics]. *)
Record FinancialMetrics := {
  npv : Q;
  irr : Q;
  avg_dscr : ExtQ;
  min_dscr : ExtQ;
  llcr : Q;
  payback_years : option Z
}.

Section Metrics.
(** [npf.irr(values)]: [None] when it raises or returns [nan]. *)
Variable npf_irr : list Q -> option Q.

(** [calculate_metrics]; [None] is the [ValueError] of [np.zeros] for a
    negative [debt_tenor].  The arrays of [cashflows] have equal lengths. *)
Definition calculate_metrics (cashflows : CashFlowTimeSeries) (plant_params : Params)
  : option FinancialMetrics :=
  let total_capex := pget plant_params "total_capex_million" 3200 * 1000000 in
  let discount_rate := pget plant_params "discount_rate" (8 # 100) in
  let debt_fraction := pget plant_params "debt_fraction" (70 # 100) in
  let debt_interest := pget plant_params "debt_interest_rate" (5 # 100) in
  let debt_tenor := py_int (pget plant_params "debt_tenor_years" 20) in
  let fcf := free_cash_flow cashflows in
  let npv := npf_npv discount_rate fcf in
  let irr := match npf_irr fcf with Some x => x | None => 0 end in
  if (debt_tenor <? 0)%Z then None else
  let debt_struct := calculate_debt_service total_capex debt_fraction debt_interest debt_tenor in
  let n_debt_years :=
    Z.to_nat (Z.min debt_tenor (Z.of_nat (List.length (ebitda cashflows)))) in
  let tax_paid := tax_expense cashflows in
  let cfads := vsub (vsub (ebitda cashflows) tax_paid) (capex cashflows) in
  let dscr :=
    map (fun i => if qlt 0 (annual_debt_service debt_struct)
                  then Fin (nth i cfads 0 / annual_debt_service debt_struct)
                  else PosInf) (seq 0 n_debt_years) in
  let avg_dscr := match dscr with [] => Fin 0 | _ => np_mean dscr end in
  let min_dscr := match dscr with [] => Fin 0 | x0 :: xs => np_min x0 xs end in
  let cash_available := firstn n_debt_years cfads in
  let llcr_numerator := npf_npv debt_interest cash_available in
  let llcr := if qlt 0 (debt_amount debt_struct)
              then llcr_numerator / debt_amount debt_struct else 0 in
  let payback_years := first_positive_cumsum 0 0 fcf in
  Some {| npv := npv; irr := irr; avg_dscr := avg_dscr; min_dscr := min_dscr;
          llcr := llcr; payback_years := payback_years |}.

End Metrics.

End CashFlow.

(* ------------------------------------------------------------------ *)
(** ** src/scenarios/carbon_pricing.py *)

Module CarbonPricing.

(** [@dataclass CarbonPricingScenario]; [price_trajectory] is a
    [Dict[int, float]], an association list with unique keys. *)
Record CarbonPricingScenario := {
  cp_name : string;
  price_trajectory : list (Z * Q);
  description : string;
  source : string;
  includes_ets : bool;
  includes_carbon_tax : bool
}.

(** [self.price_trajectory[year]]; [None] is a [KeyError]. *)
Fixpoint lookup (traj : list (Z * Q)) (year : Z) : option Q :=
  match traj with
  | [] => None
  | (y, p) :: traj' => if (y =? year)%Z then Some p else lookup traj' year
  end.

Fixpoint insert_Z (x : Z) (ys : list Z) : list Z :=
  match ys with
  | [] => [x]
  | y :: ys' => if (x <=? y)%Z then x :: ys else y :: insert_Z x ys'
  end.

(** [sorted(...)] on a list of ints. *)
Fixpoint sort_Z (xs : list Z) : list Z :=
  match xs with
  | [] => []
  | x :: xs' => insert_Z x (sort_Z xs')
  end.

Section GetCarbonPrice.

(** Python's [float ** float], used only for the fractional growth root
    [(p2 / p1) ** (1 / (y2 - y1))]; it is left arbitrary, so the
    statements below hold whatever it returns. *)
Variable rpow : Q -> Q -> Q.

Variable traj : list (Z * Q).
Variable year : Z.

(** The interpolation loop [for i in range(len(years) - 1)], over the
    consecutive pairs of the sorted years; [fallback] is what follows the
    loop. *)
Fixpoint interp_loop (ys : list Z) (fallback : option Q) : option Q :=
  match ys with
  | y0 :: ((y1 :: _) as rest) =>
      if (y0 <=? year)%Z && (year <=? y1)%Z then
        match lookup traj y0, lookup traj y1 with
        | Some p0, Some p1 =>
            let weight := inject_Z (year - y0) / inject_Z (y1 - y0) in
            Some (p0 + weight * (p1 - p0))
        | _, _ => None
        end
      else interp_loop rest fallback
  | _ => fallback
  end.

Definition get_carbon_price_traj : option Q :=
  match traj with
  | [] => Some 0
  | _ :: _ =>
    let years := sort_Z (map fst traj) in
    match years with
    | [] => None
    | first :: _ =>
      let last_y := last years first in
      if (year <=? first)%Z then lookup traj first
      else if (last_y <=? year)%Z then
        if (2 <=? List.length years)%nat then
          let y1 := nth (List.length years - 2) years first in
          let y2 := last_y in
          match lookup traj y1, lookup traj y2 with
          | Some p1, Some p2 =>
              if qlt 0 p1 then
                let annual_growth := rpow (p2 / p1) (1 / inject_Z (y2 - y1)) - 1 in
                let years_beyond := (year - last_y)%Z in
                Some (p2 * (1 + annual_growth) ^ years_beyond)
              else lookup traj last_y
          | _, _ => None
          end
        else lookup traj last_y
      else interp_loop years (lookup traj last_y)
    end
  end.

End GetCarbonPrice.

(** [CarbonPricingScenario.get_carbon_price(self, year)]. *)
Definition get_carbon_price (rpow : Q -> Q -> Q) (s : CarbonPricingScenario) (year : Z) : option Q :=
  get_carbon_price_traj rpow (price_trajectory s) year.

Definition create_no_policy_baseline : CarbonPricingScenario :=
  {| cp_name := "no_policy_baseline";
     price_trajectory := map (fun k => ((2024 + Z.of_nat k)%Z, 0)) (seq 0 37);
     description := "Hypothetical no carbon pricing (COUNTERFACTUAL - for comparison only)";
     source := "Hypothetical baseline";
     includes_ets := false;
     includes_carbon_tax := false |}.

(** The [Dict[str, float]] returned by [calculate_cumulative_carbon_cost]. *)
Record CumulativeCarbonCost := {
  cumulative_undiscounted : Q;
  cumulative_npv : Q;
  avg_annual_cost : Q
}.

(** The loop [for year in range(start_year, end_year + 1)] of
    [calculate_cumulative_carbon_cost], [k] iterations from [year] on;
    [None] is a [KeyError] of [get_carbon_price] or the [ZeroDivisionError]
    of [annual_cost / (1 + discount_rate) ** t]. *)
Fixpoint cumulative_loop (rpow : Q -> Q -> Q) (scenario : CarbonPricingScenario)
    (annual_emissions_tco2 discount_rate : Q) (start_year year : Z) (k : nat)
    (total_undiscounted total_npv : Q) : option (Q * Q) :=
  match k with
  | O => Some (total_undiscounted, total_npv)
  | S k' =>
      let t := (year - start_year)%Z in
      match get_carbon_price rpow scenario year with
      | None => None
      | Some carbon_price =>
          let annual_cost := annual_emissions_tco2 * carbon_price in
          let discount := (1 + discount_rate) ^ t in
          if Qeq_bool discount 0 then None
          else cumulative_loop rpow scenario annual_emissions_tco2 discount_rate start_year
                 (year + 1)%Z k' (total_undiscounted + annual_cost)
                 (total_npv + annual_cost / discount)
      end
  end.

(** [calculate_cumulative_carbon_cost]; [None] also covers the
    [ZeroDivisionError] of the average over an empty range
    ([end_year - start_year + 1 = 0]). *)
Definition calculate_cumulative_carbon_cost (rpow : Q -> Q -> Q)
    (scenario : CarbonPricingScenario) (annual_emissions_tco2 : Q)
    (start_year end_year : Z) (discount_rate : Q) : option CumulativeCarbonCost :=
  match cumulative_loop rpow scenario annual_emissions_tco2 discount_rate start_year start_year
          (Z.to_nat (end_year + 1 - start_year)) 0 0 with
  | None => None
  | Some (total_undiscounted, total_npv) =>
      let n := (end_year - start_year + 1)%Z in
      if (n =? 0)%Z then None
      else Some {| cumulative_undiscounted := total_undiscounted;
                   cumulative_npv := total_npv;
                   avg_annual_cost := total_undiscounted / inject_Z n |}
  end.

End CarbonPricing.

(* ------------------------------------------------------------------ *)
(** ** src/pipeline/runner.py: scenario lookup *)

Module Runner.

(** Python exceptions raised on the lookup paths. *)
Inductive PyError := ValueError (msg : string).

Inductive Result (T : Type) := Ok (v : T) | Err (e : PyError).
Arguments Ok {T} v.
Arguments Err {T} e.

(** A [csv.DictReader] row: column name to cell text. *)
Definition Row := list (string * string).

(** [d.get(key)] on a dict with string keys. *)
Fixpoint dict_get {V : Type} (d : list (string * V)) (key : string) : option V :=
  match d with
  | [] => None
  | (k, v) :: d' => if String.eqb k key then Some v else dict_get d' key
  end.

(** [key in d]. *)
Definition dict_mem {V : Type} (d : list (string * V)) (key : string) : bool :=
  match dict_get d key with Some _ => true | None => false end.

(** [str.lower()] on ASCII text. *)
Definition lower_ascii (c : ascii) : ascii :=
  let n := nat_of_ascii c in
  if (65 <=? n)%nat && (n <=? 90)%nat then ascii_of_nat (n + 32) else c.

Fixpoint lower (s : string) : string :=
  match s with
  | EmptyString => EmptyString
  | String c s' => String (lower_ascii c) (lower s')
  end.

(** [@dataclass PhysicalScenario] (src/scenarios/base.py). *)
Record PhysicalScenario := {
  ps_name : string;
  wildfire_outage_rate : Q;
  drought_derate : Q;
  cooling_temp_penalty : Q;
  water_availability_pct : Q
}.

(** [@dataclass CLIMADAHazardData] (src/climada/hazards.py). *)
Record CLIMADAHazardData := {
  hz_wildfire_outage_rate : Q;
  hz_flood_outage_rate : Q;
  hz_slr_capacity_derate : Q;
  hz_compound_multiplier : Q;
  hz_data_source : string
}.

(** The return type [PhysicalScenario | CLIMADAHazardData]. *)
Inductive PhysicalData :=
  | Climada (h : CLIMADAHazardData)
  | Scenario (p : PhysicalScenario).

(** [@dataclass TransitionScenario] (src/scenarios/base.py), with the linked
    carbon pricing scenario [_carbon_scenario]. *)
Record TransitionScenario := {
  ts_name : string;
  dispatch_priority_penalty : Q;
  retirement_years : Z;
  carbon_price_2025 : Q;
  carbon_price_2030 : Q;
  carbon_price_2040 : Q;
  carbon_price_2050 : Q;
  carbon_scenario_name : option string;
  carbon_scenario : option CarbonPricing.CarbonPricingScenario
}.

(** The catalogs a [CRPModelRunner] holds after [__init__]. *)
Record CRPModelRunner := {
  policy_scenarios : list (string * Row);
  physical_risks : list (string * Row);
  climada_hazards : list (string * CLIMADAHazardData);
  carbon_scenarios : list (string * CarbonPricing.CarbonPricingScenario)
}.

(** [get_physical_risk_scenario(level)] (src/risk/physical.py). *)
Definition get_physical_risk_scenario (level : string) : PhysicalScenario :=
  let level := lower level in
  if String.eqb level "low" then
    {| ps_name := "Low Risk"; wildfire_outage_rate := 0; drought_derate := 0;
       cooling_temp_penalty := 0; water_availability_pct := 100 |}
  else if String.eqb level "medium" then
    {| ps_name := "Medium Risk"; wildfire_outage_rate := 1 # 100; drought_derate := 2 # 100;
       cooling_temp_penalty := 1 # 100; water_availability_pct := 90 |}
  else if String.eqb level "high" then
    {| ps_name := "High Risk"; wildfire_outage_rate := 3 # 100; drought_derate := 5 # 100;
       cooling_temp_penalty := 3 # 100; water_availability_pct := 80 |}
  else if String.eqb level "extreme" then
    {| ps_name := "Extreme Risk"; wildfire_outage_rate := 5 # 100; drought_derate := 10 # 100;
       cooling_temp_penalty := 5 # 100; water_availability_pct := 60 |}
  else
    {| ps_name := "Baseline (Low)"; wildfire_outage_rate := 0; drought_derate := 0;
       cooling_temp_penalty := 0; water_availability_pct := 100 |}.

Section Lookup.

(** Python's [float(text)] on a CSV cell; [None] is its [ValueError].  It
    is left arbitrary: the lookup failures below do not depend on it. *)
Variable py_float : string -> option Q.

(** [float(row.get(key, default))]. *)
Definition cell_float (row : Row) (key : string) (default : Q) : Result Q :=
  match dict_get row key with
  | None => Ok default
  | Some s =>
      match py_float s with
      | Some q => Ok q
      | None => Err (ValueError ("could not convert string to float: '" ++ s ++ "'"))
      end
  end.

(** [if not row]: [None] or an empty dict. *)
Definition row_falsy (row : option Row) : bool :=
  match row with None | Some [] => true | Some (_ :: _) => false end.

Definition _load_transition_scenario (self : CRPModelRunner) (scenario_name : string)
    : Result TransitionScenario :=
  let row := dict_get (policy_scenarios self) scenario_name in
  match row with
  | None | Some [] =>
      Err (ValueError ("Transition scenario '" ++ scenario_name ++ "' not found"))
  | Some row =>
    let carbon_scenario_name := dict_get row "carbon_scenario" in
    match cell_float row "dispatch_penalty" 0, cell_float row "retirement_years" 40,
          cell_float row "carbon_price_2025" 0, cell_float row "carbon_price_2030" 0,
          cell_float row "carbon_price_2040" 0, cell_float row "carbon_price_2050" 0 with
    | Ok dp, Ok ry, Ok c25, Ok c30, Ok c40, Ok c50 =>
        let linked :=
          match carbon_scenario_name with
          | Some n => if negb (String.eqb n "") then dict_get (carbon_scenarios self) n else None
          | None => None
          end in
        Ok {| ts_name := scenario_name; dispatch_priority_penalty := dp;
              retirement_years := CashFlow.py_int ry;
              carbon_price_2025 := c25; carbon_price_2030 := c30;
              carbon_price_2040 := c40; carbon_price_2050 := c50;
              carbon_scenario_name := carbon_scenario_name;
              carbon_scenario := linked |}
    | Err e, _, _, _, _, _ | _, Err e, _, _, _, _ | _, _, Err e, _, _, _
    | _, _, _, Err e, _, _ | _, _, _, _, Err e, _ | _, _, _, _, _, Err e => Err e
    end
  end.

Definition _load_physical_scenario (self : CRPModelRunner) (scenario_name : string)
    : Result PhysicalData :=
  match dict_get (climada_hazards self) scenario_name with
  | Some h => Ok (Climada h)
  | None =>
    if String.eqb scenario_name "severe_drought" then
      Ok (Scenario {| ps_name := "severe_drought"; wildfire_outage_rate := 5 # 100;
                      drought_derate := 5 # 100; cooling_temp_penalty := 2 # 100;
                      water_availability_pct := 50 |})
    else if existsb (String.eqb (lower scenario_name)) ["low"; "medium"; "high"; "extreme"]%string then
      Ok (Scenario (get_physical_risk_scenario scenario_name))
    else
      let row := dict_get (physical_risks self) scenario_name in
      match row with
      | None | Some [] => Ok (Scenario (get_physical_risk_scenario "Low"))
      | Some row =>
        match cell_float row "wildfire_outage_rate" 0, cell_float row "drought_derate" 0,
              cell_float row "cooling_temp_penalty" 0,
              cell_float row "water_availability_pct" 100 with
        | Ok w, Ok d, Ok c, Ok wa =>
            Ok (Scenario {| ps_name := scenario_name; wildfire_outage_rate := w;
                            drought_derate := d; cooling_temp_penalty := c;
                            water_availability_pct := wa |})
        | Err e, _, _, _ | _, Err e, _, _ | _, _, Err e, _ | _, _, _, Err e => Err e
        end
      end
  end.

End Lookup.

End Runner.

(* ================================================================== *)
(** * Auxiliary definitions and sample inputs *)

Module RatingAux.
Import CreditRating.

(** Greatest value in a list of ratings, [0] for the empty list. *)
Definition dmax (rs : list Rating) : Z :=
  fold_right (fun r acc => Z.max (value r) acc) 0%Z rs.

(** The clamped weighted-average score of [assess_credit_rating]. *)
Definition clamped_score (c : ComponentRatings) : Z :=
  Z.max 1 (Z.min 10 (py_round (weighted_score c))).

(** [distress_ratings] of [assess_credit_rating]. *)
Definition distress_of (c : ComponentRatings) : list Rating :=
  filter (fun r => (7 <=? value r)%Z) (critical_ratings c).

(** Sample metrics: a thin DSCR of 0.5 (rated D), otherwise a sound plant. *)
Definition distressed_metrics : RatingMetrics :=
  {| capacity_mw := 1000; ebitda_to_fixed_assets := 1 # 10; ebitda_to_interest := 3;
     net_debt_to_ebitda := 3; debt_to_equity := 1; debt_to_assets := 1 # 2;
     dscr := 1 # 2; is_ebitda_negative := false; consecutive_loss_years := 0 |}.

(** The same metrics with a DSCR of [d] and an EBITDA/fixed-assets ratio of
    [efa]. *)
Definition metrics_with (efa d : Q) : RatingMetrics :=
  {| capacity_mw := 1000; ebitda_to_fixed_assets := efa; ebitda_to_interest := 3;
     net_debt_to_ebitda := 3; debt_to_equity := 1; debt_to_assets := 1 # 2;
     dscr := d; is_ebitda_negative := false; consecutive_loss_years := 0 |}.

End RatingAux.

Module CashFlowAux.
Import CashFlow.

(** The plant of the worked example: 1000 MW, zero fuel and O&M cost,
    CAPEX $1,000M over a 20-year life, half debt at 5% over 10 years,
    25% tax, power at $100/MWh. *)
Definition example_plant : Params :=
  [("capacity_mw", 1000); ("power_price_per_mwh", 100);
   ("heat_rate_mmbtu_mwh", 0); ("fuel_price_per_mmbtu", 0);
   ("fixed_opex_per_kw_year", 0); ("variable_opex_per_mwh", 0);
   ("total_capex_million", 1000); ("useful_life", 20); ("tax_rate", 25 # 100);
   ("debt_fraction", 1 # 2); ("debt_interest_rate", 5 # 100);
   ("debt_tenor_years", 10)]%string.

Fixpoint qpow (t : Q) (k : nat) : Q :=
  match k with
  | O => 1
  | S k' => t * qpow t k'
  end.

(** The balance after [k] iterations of the amortization loop. *)
Fixpoint bal_iter (r a : Q) (k : nat) (balance : Q) : Q :=
  match k with
  | O => balance
  | S k' => bal_iter r a k' (balance - (a - balance * r))
  end.

Definition qsum (xs : list Q) : Q := fold_right Qplus 0 xs.

(** Financing parameters for [calculate_metrics]: CAPEX of $1M, half of
    it debt at 5% over 2 years. *)
Definition metrics_params : Params :=
  [("total_capex_million", 1); ("debt_fraction", 1 # 2);
   ("debt_interest_rate", 5 # 100); ("debt_tenor_years", 2)]%string.

(** The level annual debt service of [metrics_params]. *)
Definition level_ds : Q :=
  annual_debt_service (calculate_debt_service 1000000 (1 # 2) (5 # 100) 2).

(** A three-year series whose cash flow available for debt service
    (EBITDA, no tax, no capex) is the level debt service every year. *)
Definition level_series : CashFlowTimeSeries :=
  let z := [0; 0; 0] in
  {| years := [2025; 2026; 2027]%Z; revenue := z; fuel_costs := z; variable_opex := z;
     fixed_opex := z; carbon_costs := z; outage_costs := z; total_costs := z;
     ebitda := [level_ds; level_ds; level_ds]; depreciation := z; ebit := z;
     interest_expense := z; tax_expense := z; net_income := z; capex := z;
     free_cash_flow := [-300000; 100000; 250000]; cf_capacity_factor := z |}.

End CashFlowAux.

Module RunnerAux.
Import Runner.

(** A runner with empty catalogs. *)
Definition empty_runner : CRPModelRunner :=
  {| policy_scenarios := []; physical_risks := []; climada_hazards := [];
     carbon_scenarios := [] |}.

End RunnerAux.

(* ================================================================== *)
(** * Properties *)

(** Turn the boolean comparisons of the embedding into order facts on [Q]. *)
Lemma qle_true a b : qle a b = true -> a <= b.
Proof. apply Qle_bool_imp_le. Qed.

Lemma qle_false a b : qle a b = false -> b < a.
Proof.
  unfold qle; intros H. apply Qnot_le_lt. intros H'.
  apply Qle_bool_iff in H'. congruence.
Qed.

Lemma qlt_true a b : qlt a b = true -> a < b.
Proof.
  unfold qlt; intros H. apply negb_true_iff in H. now apply (qle_false b a).
Qed.

Lemma qlt_false a b : qlt a b = false -> b <= a.
Proof.
  unfold qlt; intros H. apply negb_false_iff in H. now apply Qle_bool_imp_le.
Qed.

Lemma qlt_of_lt a b : a < b -> qlt a b = true.
Proof.
  intros H. unfold qlt. apply negb_true_iff.
  destruct (Qle_bool b a) eqn:E; [|reflexivity].
  apply Qle_bool_imp_le in E. exfalso; lra.
Qed.

Ltac qcmp :=
  repeat match goal with
  | H : qle _ _ = true |- _ => apply qle_true in H
  | H : qle _ _ = false |- _ => apply qle_false in H
  | H : qlt _ _ = true |- _ => apply qlt_true in H
  | H : qlt _ _ = false |- _ => apply qlt_false in H
  end.

(** Split every boolean comparison of the goal, in order. *)
Ltac split_cmps :=
  repeat match goal with
  | |- context [qle ?a ?b] =>
      let E := fresh "E" in destruct (qle a b) eqn:E; cbv beta iota
  | |- context [qlt ?a ?b] =>
      let E := fresh "E" in destruct (qlt a b) eqn:E; cbv beta iota
  end; qcmp.

(** Case split on the outermost conditional of either side of a
    comparison of rating values. *)
Ltac peel_if :=
  match goal with
  | |- (CreditRating.value (if ?c then _ else _) <= _)%Z =>
      let E := fresh "E" in destruct c eqn:E; cbv beta iota
  | |- (_ <= CreditRating.value (if ?c then _ else _))%Z =>
      let E := fresh "E" in destruct c eqn:E; cbv beta iota
  | |- (if ?c then _ else _) = _ =>
      let E := fresh "E" in destruct c eqn:E; cbv beta iota
  end.

Lemma py_round_bounds q : (Qfloor q <= py_round q <= Qfloor q + 1)%Z.
Proof.
  unfold py_round. destruct (qlt _ _); [lia|].
  destruct (qlt _ _); [lia|]. destruct (Z.even _); lia.
Qed.

(** [round] is monotone. *)
Lemma py_round_mono x y : x <= y -> (py_round x <= py_round y)%Z.
Proof.
  intros Hxy.
  pose proof (Qfloor_resp_le x y Hxy) as Hf.
  destruct (Z.eq_dec (Qfloor x) (Qfloor y)) as [Heq|Hne].
  - unfold py_round. rewrite Heq.
    set (f := Qfloor y) in *.
    assert (Hfr : x - inject_Z f <= y - inject_Z f) by lra.
    split_cmps; try lia; try (exfalso; lra);
      destruct (Z.even f); lia.
  - pose proof (py_round_bounds x). pose proof (py_round_bounds y). lia.
Qed.

Module CreditRatingFacts.
Import CreditRating RatingAux.

Lemma value_range r : (1 <= value r <= 10)%Z.
Proof. destruct r; simpl; lia. Qed.

Lemma Rating_of_Z_value n :
  (1 <= n <= 10)%Z -> exists r, Rating_of_Z n = Some r /\ value r = n.
Proof.
  intros Hn.
  assert (n = 1 \/ n = 2 \/ n = 3 \/ n = 4 \/ n = 5 \/ n = 6 \/ n = 7
          \/ n = 8 \/ n = 9 \/ n = 10)%Z as Hc by lia.
  repeat destruct Hc as [-> | Hc]; try (subst; eexists; split; reflexivity).
Qed.

Lemma dmax_nonneg rs : (0 <= dmax rs)%Z.
Proof. induction rs; simpl; lia. Qed.

Lemma max_by_value_value r0 rs :
  value (max_by_value r0 rs) = Z.max (value r0) (dmax rs).
Proof.
  revert r0; induction rs as [|r rs IH]; intros r0; simpl.
  - pose proof (value_range r0); lia.
  - rewrite IH. destruct (value r0 <? value r)%Z eqn:E;
      [apply Z.ltb_lt in E | apply Z.ltb_ge in E]; lia.
Qed.

Lemma dmax_le10 rs : (dmax rs <= 10)%Z.
Proof. induction rs as [|r rs IH]; simpl; [lia|]. pose proof (value_range r); lia. Qed.

Lemma dmax_In r rs : In r rs -> (value r <= dmax rs)%Z.
Proof.
  induction rs as [|x rs IH]; simpl; [tauto|].
  intros [<- | H]; [lia|]. specialize (IH H); lia.
Qed.

(** [assess_credit_rating] never raises, and its overall value is the
    clamped score raised to the worst distressed critical component. *)
Lemma assess_overall m :
  exists a, assess_credit_rating m = Some a /\
    component_ratings a = components m /\
    value (overall_rating a) =
      Z.max (clamped_score (components m)) (dmax (distress_of (components m))).
Proof.
  unfold assess_credit_rating, clamped_score, distress_of; cbv zeta.
  generalize (components m) as c; intros c.
  assert (Hc : (1 <= Z.max 1 (Z.min 10 (py_round (weighted_score c))) <= 10)%Z) by lia.
  destruct (filter (fun r => (7 <=? value r)%Z) (critical_ratings c)) as [|r0 rs] eqn:Hd.
  - destruct (Rating_of_Z_value _ Hc) as [r [Hr Hv]]. rewrite Hr.
    eexists; split; [reflexivity|]. cbn [overall_rating component_ratings dmax fold_right].
    split; [reflexivity|]. lia.
  - rewrite max_by_value_value.
    pose proof (value_range r0). pose proof (dmax_nonneg rs).
    pose proof (dmax_le10 rs).
    assert (Hn : (1 <= Z.max (Z.max 1 (Z.min 10 (py_round (weighted_score c))))
                              (Z.max (value r0) (dmax rs)) <= 10)%Z) by lia.
    destruct (Rating_of_Z_value _ Hn) as [r [Hr Hv]]. rewrite Hr.
    eexists; split; [reflexivity|]. cbn [overall_rating component_ratings].
    split; [reflexivity|exact Hv].
Qed.

(** [rate_dscr] is antitone: a lower DSCR never gets a better rating. *)
Lemma rate_dscr_antitone d1 d2 : d1 <= d2 -> (value (rate_dscr d2) <= value (rate_dscr d1))%Z.
Proof.
  intros H. unfold rate_dscr.
  repeat peel_if; qcmp; cbn [value]; try lia; exfalso; lra.
Qed.

Section SameButDscr.
Variables c1 c2 : ComponentRatings.
Hypothesis Hcap : cr_capacity c1 = cr_capacity c2.
Hypothesis Hprof : cr_profitability c1 = cr_profitability c2.
Hypothesis Hcov : cr_coverage c1 = cr_coverage c2.
Hypothesis Hnd : cr_net_debt_leverage c1 = cr_net_debt_leverage c2.
Hypothesis Heq : cr_equity_leverage c1 = cr_equity_leverage c2.
Hypothesis Has : cr_asset_leverage c1 = cr_asset_leverage c2.
Hypothesis Hd : (value (cr_dscr c2) <= value (cr_dscr c1))%Z.

Lemma weighted_score_dscr : weighted_score c2 <= weighted_score c1.
Proof.
  destruct c1, c2; simpl in *; subst.
  unfold weighted_score, weights; simpl.
  rewrite Zle_Qle in Hd. lra.
Qed.

Lemma dmax_distress_dscr : (dmax (distress_of c2) <= dmax (distress_of c1))%Z.
Proof.
  destruct c1 as [a1 b1 e1 d1 f1 g1 h1], c2 as [a2 b2 e2 d2 f2 g2 h2];
    simpl in *; subst.
  unfold distress_of, critical_ratings. cbn [filter cr_dscr cr_coverage cr_profitability].
  destruct (7 <=? value d1)%Z eqn:E1, (7 <=? value d2)%Z eqn:E2,
           (7 <=? value e2)%Z eqn:E3, (7 <=? value b2)%Z eqn:E4;
    cbn [dmax fold_right]; rewrite ?Z.leb_le, ?Z.leb_gt in *; lia.
Qed.

Lemma overall_dscr :
  (Z.max (clamped_score c2) (dmax (distress_of c2))
   <= Z.max (clamped_score c1) (dmax (distress_of c1)))%Z.
Proof.
  pose proof (py_round_mono _ _ weighted_score_dscr).
  pose proof dmax_distress_dscr.
  unfold clamped_score. lia.
Qed.

End SameButDscr.

(** C1: the overall rating is never better (numerically lower) than any
    of the dscr, coverage and profitability ratings that is in the
    distressed band (value >= 7). *)
Theorem assess_distress_override (m : RatingMetrics) :
  exists a, assess_credit_rating m = Some a /\
    forall r, In r [cr_dscr (component_ratings a); cr_coverage (component_ratings a);
                    cr_profitability (component_ratings a)] ->
      (7 <= value r)%Z -> (value r <= value (overall_rating a))%Z.
Proof.
  destruct (assess_overall m) as [a [Ha [Hc Hv]]].
  exists a; split; [exact Ha|].
  intros r Hin H7. rewrite Hv.
  assert (In r (distress_of (components m))).
  { unfold distress_of. apply filter_In. split.
    - rewrite Hc in Hin. exact Hin.
    - apply Z.leb_le; exact H7. }
  pose proof (dmax_In _ _ H). lia.
Qed.

(** C10: [assess_credit_rating] always constructs a valid rating: the
    clamped weighted score lies in 1..10, and so does the overall rating
    after the distress override. *)
Theorem assess_overall_in_range (m : RatingMetrics) :
  (1 <= clamped_score (components m) <= 10)%Z /\
  exists a, assess_credit_rating m = Some a /\
    (1 <= value (overall_rating a) <= 10)%Z.
Proof.
  split; [unfold clamped_score; lia|].
  destruct (assess_overall m) as [a [Ha [_ Hv]]].
  exists a; split; [exact Ha|]. rewrite Hv.
  pose proof (dmax_le10 (distress_of (components m))).
  unfold clamped_score in *. lia.
Qed.

(** C6: for two metric sets identical except in dscr, the one with the
    lower dscr gets an overall rating at least as bad (numerically at
    least as high). *)
Theorem assess_dscr_monotone (m1 m2 : RatingMetrics) (a1 a2 : RatingAssessment)
  (Hcap : capacity_mw m1 = capacity_mw m2)
  (Hefa : ebitda_to_fixed_assets m1 = ebitda_to_fixed_assets m2)
  (Hei : ebitda_to_interest m1 = ebitda_to_interest m2)
  (Hnd : net_debt_to_ebitda m1 = net_debt_to_ebitda m2)
  (Hde : debt_to_equity m1 = debt_to_equity m2)
  (Hda : debt_to_assets m1 = debt_to_assets m2)
  (Hneg : is_ebitda_negative m1 = is_ebitda_negative m2)
  (Hloss : consecutive_loss_years m1 = consecutive_loss_years m2)
  (Hlow : dscr m1 <= dscr m2)
  (H1 : assess_credit_rating m1 = Some a1)
  (H2 : assess_credit_rating m2 = Some a2) :
  (value (overall_rating a2) <= value (overall_rating a1))%Z.
Proof.
  destruct (assess_overall m1) as [b1 [E1 [_ V1]]].
  destruct (assess_overall m2) as [b2 [E2 [_ V2]]].
  rewrite H1 in E1; injection E1 as <-. rewrite H2 in E2; injection E2 as <-.
  rewrite V1, V2.
  apply overall_dscr; unfold components, ebitda_negative; simpl;
    rewrite ?Hcap, ?Hefa, ?Hei, ?Hnd, ?Hde, ?Hda, ?Hneg; try reflexivity.
  apply rate_dscr_antitone; exact Hlow.
Qed.

(** C7, as the code has it: negative coverage and DSCR ratios are routed to
    the distressed ratings (CC, C or D; D for any negative DSCR); a
    negative EBITDA/fixed-assets ratio gives CC inside
    [assess_credit_rating] (which passes [is_negative = true] for it) and
    in any direct call with [is_negative = true]; a direct call with the
    default [is_negative = false] gives CC below -20, CCC on [-20, -10)
    and the speculative B (value 6) on [-10, 0). *)
Theorem negative_ratios_routing :
  (forall x, x < 0 ->
     (rate_coverage x = CC \/ rate_coverage x = C \/ rate_coverage x = D) /\
     (8 <= value (rate_coverage x))%Z) /\
  (forall x, x < 0 -> rate_dscr x = D) /\
  (forall x, x < 0 -> rate_profitability x true = CC) /\
  (forall x, x < -20 -> rate_profitability x false = CC) /\
  (forall x, -20 <= x -> x < -10 -> rate_profitability x false = CCC) /\
  (forall x, -10 <= x -> x < 0 -> rate_profitability x false = B) /\
  (forall m, ebitda_to_fixed_assets m < 0 -> cr_profitability (components m) = CC).
Proof.
  split; [|split; [|split; [|split; [|split; [|split]]]]].
  - intros x Hx.
    assert (Hv : (8 <= value (rate_coverage x))%Z)
      by (unfold rate_coverage; repeat peel_if; qcmp; cbn [value]; try lia; exfalso; lra).
    split; [|exact Hv].
    destruct (rate_coverage x); cbn [value] in Hv; try lia;
      first [left; reflexivity | right; left; reflexivity | right; right; reflexivity].
  - intros x Hx. unfold rate_dscr. rewrite (qlt_of_lt _ _ Hx). reflexivity.
  - intros x _. reflexivity.
  - intros x Hx. unfold rate_profitability. cbn [orb].
    rewrite (qlt_of_lt _ _ Hx). reflexivity.
  - intros x Hlo Hhi. unfold rate_profitability. cbn [orb].
    repeat peel_if; qcmp; try reflexivity; exfalso; lra.
  - intros x Hlo Hhi. unfold rate_profitability. cbn [orb].
    repeat peel_if; qcmp; try reflexivity; exfalso; lra.
  - intros m Hm. unfold components, ebitda_negative. cbn [cr_profitability].
    rewrite (qlt_of_lt _ _ Hm), orb_true_r. reflexivity.
Qed.

(** C7 counterexample: [rate_profitability(-5.0)] (default
    [is_negative=False]) is B, value 6, outside the distressed band. *)
Lemma rate_profitability_marginal_loss :
  rate_profitability (-5) false = B /\ ~ (7 <= value (rate_profitability (-5) false))%Z.
Proof.
  split; [reflexivity|]. cbv. intros H. apply H. reflexivity.
Qed.

Lemma assess_distress_override_witness :
  exists a, assess_credit_rating distressed_metrics = Some a /\
    (7 <= value (cr_dscr (component_ratings a)))%Z /\
    (value (cr_dscr (component_ratings a)) <= value (overall_rating a))%Z.
Proof.
  destruct (assess_distress_override distressed_metrics) as [a [Ha Hall]].
  exists a. split; [exact Ha|].
  assert (H7 : (7 <= value (cr_dscr (component_ratings a)))%Z).
  { pose proof Ha as Hc. vm_compute in Hc. injection Hc as <-. cbn. lia. }
  split; [exact H7|]. apply Hall; [left; reflexivity|exact H7].
Defined.

Lemma assess_dscr_monotone_witness :
  exists a1 a2,
    assess_credit_rating (metrics_with (1 # 10) (9 # 10)) = Some a1 /\
    assess_credit_rating (metrics_with (1 # 10) (3 # 2)) = Some a2 /\
    dscr (metrics_with (1 # 10) (9 # 10)) <= dscr (metrics_with (1 # 10) (3 # 2)) /\
    (value (overall_rating a2) <= value (overall_rating a1))%Z.
Proof.
  eexists; eexists. split; [reflexivity|]. split; [reflexivity|].
  split; [apply Qle_bool_imp_le; reflexivity|].
  apply (assess_dscr_monotone (metrics_with (1 # 10) (9 # 10))
           (metrics_with (1 # 10) (3 # 2))); try reflexivity.
  apply Qle_bool_imp_le; reflexivity.
Defined.

Lemma negative_ratios_routing_witness :
  (-1 < 0 /\ (rate_coverage (-1) = CC \/ rate_coverage (-1) = C \/ rate_coverage (-1) = D) /\
   (8 <= value (rate_coverage (-1)))%Z) /\
  (-1 < 0 /\ rate_dscr (-1) = D) /\
  (-1 < 0 /\ rate_profitability (-1) true = CC) /\
  (-25 < -20 /\ rate_profitability (-25) false = CC) /\
  (-20 <= -15 /\ -15 < -10 /\ rate_profitability (-15) false = CCC) /\
  (-10 <= -5 /\ -5 < 0 /\ rate_profitability (-5) false = B) /\
  (ebitda_to_fixed_assets (metrics_with (-1 # 10) 2) < 0 /\
   cr_profitability (components (metrics_with (-1 # 10) 2)) = CC).
Proof.
  destruct negative_ratios_routing as [Hc [Hd [Hp [Hq [Hr [Hb Hm]]]]]].
  split; [split; [reflexivity|apply Hc; reflexivity]|].
  split; [split; [reflexivity|apply Hd; reflexivity]|].
  split; [split; [reflexivity|apply Hp; reflexivity]|].
  split; [split; [reflexivity|apply Hq; reflexivity]|].
  split; [split; [apply Qle_bool_imp_le; reflexivity|split; [reflexivity|]];
          apply Hr; [apply Qle_bool_imp_le|]; reflexivity|].
  split; [split; [apply Qle_bool_imp_le; reflexivity|split; [reflexivity|]];
          apply Hb; [apply Qle_bool_imp_le|]; reflexivity|].
  split; [reflexivity|apply Hm; reflexivity].
Defined.

End CreditRatingFacts.

Module CashFlowFacts.
Import CashFlow CashFlowAux.

Lemma length_vzip f xs ys : List.length (vzip f xs ys) = Nat.min (List.length xs) (List.length ys).
Proof.
  revert ys; induction xs as [|x xs IH]; intros [|y ys]; simpl; auto.
Qed.

Lemma nth_vzip f xs ys i d :
  (i < List.length xs)%nat -> (i < List.length ys)%nat ->
  nth i (vzip f xs ys) d = f (nth i xs d) (nth i ys d).
Proof.
  revert ys i; induction xs as [|x xs IH]; intros [|y ys] [|i]; simpl; intros; try lia; auto.
  apply IH; lia.
Qed.

Lemma nth_map_lt {T U : Type} (f : T -> U) l i d d' :
  (i < List.length l)%nat -> nth i (map f l) d = f (nth i l d').
Proof.
  intros Hi. rewrite (nth_indep _ d (f d')) by (rewrite length_map; exact Hi).
  apply map_nth.
Qed.

Ltac lens :=
  repeat (rewrite ?length_vzip, ?length_map, ?repeat_length, ?length_seq);
  lia.

Arguments interest_loop : simpl never.

(** Unfold a successful [compute_cashflows_timeseries] into its result. *)
Ltac open_cf H :=
  unfold compute_cashflows_timeseries in H; cbv zeta in H;
  match type of H with
  | (if ?c then None else Some _) = Some _ =>
      let E := fresh "E" in destruct c eqn:E; [discriminate H|];
      injection H as <-
  end.

(** C3: in every year of a computed cash-flow series, EBITDA is exactly
    revenue minus the sum of fuel, variable O&M, fixed O&M, carbon and
    outage costs, with no floor, negative values included. *)
Theorem ebitda_identity (plant_params : Params) (ts : TransitionScenario)
  (ta : TransitionAdjustments) (pa : PhysicalAdjustments)
  (ms : option MarketScenario) (start_year : Z) (cf : CashFlowTimeSeries)
  (H : compute_cashflows_timeseries plant_params ts ta pa ms start_year = Some cf)
  (i : nat) (Hi : (i < operating_years ta)%nat) :
  nth i (ebitda cf) 0 =
  nth i (revenue cf) 0 -
    (nth i (fuel_costs cf) 0 + nth i (variable_opex cf) 0 + nth i (fixed_opex cf) 0
     + nth i (carbon_costs cf) 0 + nth i (outage_costs cf) 0).
Proof.
  destruct ms as [m|]; open_cf H; cbn [ebitda revenue fuel_costs variable_opex
    fixed_opex carbon_costs outage_costs]; unfold vsub, vadd, vmul;
    rewrite ?nth_vzip by lens; reflexivity.
Qed.

Lemma interest_loop_head r a idx ie bal x :
  (forall j, In j idx -> j <> O) ->
  exists rest, fst (interest_loop r a idx (x :: ie, bal)) = x :: rest.
Proof.
  revert ie bal; induction idx as [|j idx IH]; intros ie bal Hj; [eexists; reflexivity|].
  destruct j as [|j]; [exfalso; apply (Hj O); [left|]; reflexivity|].
  unfold interest_loop; cbn [fold_left]. fold (interest_loop r a idx).
  cbn [list_set]. apply IH. intros k Hk; apply Hj; right; exact Hk.
Qed.

(** The first iteration of the interest loop writes [balance * rate] in
    year 1, and no later iteration overwrites it. *)
Lemma interest_loop_first r a k ie bal x :
  (0 < k)%nat ->
  exists rest, fst (interest_loop r a (seq 0 k) (x :: ie, bal)) = bal * r :: rest.
Proof.
  intros Hk. destruct k as [|k]; [lia|].
  cbn [seq]. unfold interest_loop; cbn [fold_left list_set].
  fold (interest_loop r a (seq 1 k)).
  apply interest_loop_head. intros j Hj. apply in_seq in Hj. lia.
Qed.

Theorem year1_example (n : nat) (start_year : Z) :
  exists cf,
    compute_cashflows_timeseries example_plant {| get_carbon_price := fun _ => 0 |}
      {| capacity_factor := 1 # 2; operating_years := S n |}
      {| outage_rate := 0; capacity_derate := 0; efficiency_loss := 0;
         water_constrained_capacity := 1 |} None start_year = Some cf /\
    nth 0 (revenue cf) 0 == 438000000 /\
    nth 0 (depreciation cf) 0 == 50000000 /\
    nth 0 (interest_expense cf) 0 == 25000000 /\
    nth 0 (ebit cf) 0 - nth 0 (interest_expense cf) 0 == 363000000 /\
    nth 0 (tax_expense cf) 0 == 90750000 /\
    nth 0 (net_income cf) 0 == 272250000.
Proof.
  eexists; split; [reflexivity|].
  cbn.
  match goal with
  | |- context [fst (interest_loop ?r ?a (seq 0 ?k) (?x :: ?ie, ?bal))] =>
      destruct (interest_loop_first r a k ie bal x) as [rest Hrest];
      [simpl; lia | rewrite Hrest]
  end.
  cbn. vm_compute. repeat split; reflexivity.
Qed.


Lemma nth_repeat_lt {T : Type} (x d : T) n i :
  (i < n)%nat -> nth i (repeat x n) d = x.
Proof.
  revert i; induction n as [|n IH]; intros [|i] Hi; simpl; try lia; auto.
  apply IH; lia.
Qed.

Lemma nth_years start n i :
  (i < n)%nat ->
  nth i (map (fun k => (start + Z.of_nat k)%Z) (seq 0 n)) 0%Z = (start + Z.of_nat i)%Z.
Proof.
  intros Hi. rewrite (nth_map_lt _ _ _ _ O) by lens. rewrite seq_nth by exact Hi.
  reflexivity.
Qed.

(** C8: for fixed plant, scenario, adjustments, start year and market, a
    larger capacity derate (and any outage rate) never gives a year a larger
    effective generation [capacity_mw * 8760 * capacity factor], for a
    nonnegative capacity and base capacity factor and a demand growth above
    -100%. *)
Theorem generation_monotone (plant_params : Params) (ts : TransitionScenario)
  (ta : TransitionAdjustments) (pa1 pa2 : PhysicalAdjustments)
  (ms : option MarketScenario) (start_year : Z) (cf1 cf2 : CashFlowTimeSeries)
  (Hcap : 0 <= pget plant_params "capacity_mw" 2000)
  (Hbase : 0 <= capacity_factor ta)
  (Hdemand : forall m, ms = Some m -> 0 <= 1 + demand_growth_pct m / 100)
  (Hderate : capacity_derate pa1 <= capacity_derate pa2)
  (Houtage : outage_rate pa1 <= outage_rate pa2)
  (Hwater : water_constrained_capacity pa1 = water_constrained_capacity pa2)
  (H1 : compute_cashflows_timeseries plant_params ts ta pa1 ms start_year = Some cf1)
  (H2 : compute_cashflows_timeseries plant_params ts ta pa2 ms start_year = Some cf2)
  (i : nat) (Hi : (i < operating_years ta)%nat) :
  pget plant_params "capacity_mw" 2000 * 8760 * nth i (cf_capacity_factor cf2) 0 <=
  pget plant_params "capacity_mw" 2000 * 8760 * nth i (cf_capacity_factor cf1) 0.
Proof.
  assert (Hb : exists b, 0 <= b /\
    forall pa cf, compute_cashflows_timeseries plant_params ts ta pa ms start_year = Some cf ->
      nth i (cf_capacity_factor cf) 0 ==
      Qmax (Qmin (b * (1 - capacity_derate pa)) (water_constrained_capacity pa)) 0).
  { destruct ms as [m|].
    - exists (Qmin 1 (capacity_factor ta *
        get_demand_factor m (start_year + Z.of_nat i) start_year)).
      split.
      + apply Q.min_glb; [lra|]. apply Qmult_le_0_compat; [exact Hbase|].
        unfold get_demand_factor. apply Qpower_0_le, Hdemand. reflexivity.
      + intros pa cf H. open_cf H. cbn [cf_capacity_factor].
        rewrite !(nth_map_lt _ _ _ 0 0) by lens.
        rewrite (nth_map_lt _ _ _ 0 0%Z) by lens. rewrite nth_years by exact Hi.
        reflexivity.
    - exists (capacity_factor ta). split; [exact Hbase|].
      intros pa cf H. open_cf H. cbn [cf_capacity_factor].
      rewrite !(nth_map_lt _ _ _ 0 0) by lens. rewrite nth_repeat_lt by exact Hi.
      reflexivity. }
  destruct Hb as [b [Hb0 Hb]].
  rewrite (Hb _ _ H1), (Hb _ _ H2), Hwater.
  apply Qmult_le_compat_nonneg; split; [lra|lra|apply Q.le_max_r|].
  apply Q.max_le_compat_r, Q.min_le_compat_r.
  rewrite (Qmult_comm b), (Qmult_comm b).
  apply Qmult_le_compat_r; lra.
Qed.

Lemma generation_monotone_witness :
  let pa1 := {| outage_rate := 0; capacity_derate := 1 # 10; efficiency_loss := 0;
                water_constrained_capacity := 1 |} in
  let pa2 := {| outage_rate := 1 # 20; capacity_derate := 2 # 10; efficiency_loss := 0;
                water_constrained_capacity := 1 |} in
  let ta := {| capacity_factor := 1 # 2; operating_years := 3 |} in
  let ts := {| get_carbon_price := fun _ => 0 |} in
  exists cf1 cf2,
    compute_cashflows_timeseries example_plant ts ta pa1 None 2025 = Some cf1 /\
    compute_cashflows_timeseries example_plant ts ta pa2 None 2025 = Some cf2 /\
    pget example_plant "capacity_mw" 2000 * 8760 * nth 1 (cf_capacity_factor cf2) 0 <=
    pget example_plant "capacity_mw" 2000 * 8760 * nth 1 (cf_capacity_factor cf1) 0.
Proof.
  intros pa1 pa2 ta ts.
  eexists; eexists; split; [reflexivity|]; split; [reflexivity|].
  apply (generation_monotone example_plant ts ta pa1 pa2 None 2025); 
    try reflexivity; try (intros m Hm; discriminate Hm);
    try (apply Qle_bool_imp_le; reflexivity); simpl; lia.
Defined.

Lemma ebitda_identity_witness :
  exists cf,
    compute_cashflows_timeseries example_plant {| get_carbon_price := fun _ => 0 |}
      {| capacity_factor := 1 # 2; operating_years := 3 |}
      {| outage_rate := 1 # 20; capacity_derate := 0; efficiency_loss := 0;
         water_constrained_capacity := 1 |} None 2025 = Some cf /\
    (1 < 3)%nat /\
    nth 1 (ebitda cf) 0 =
    nth 1 (revenue cf) 0 -
      (nth 1 (fuel_costs cf) 0 + nth 1 (variable_opex cf) 0 + nth 1 (fixed_opex cf) 0
       + nth 1 (carbon_costs cf) 0 + nth 1 (outage_costs cf) 0).
Proof.
  eexists. split; [reflexivity|]. split; [lia|].
  apply (ebitda_identity example_plant {| get_carbon_price := fun _ => 0 |}
    {| capacity_factor := 1 # 2; operating_years := 3 |}
    {| outage_rate := 1 # 20; capacity_derate := 0; efficiency_loss := 0;
       water_constrained_capacity := 1 |} None 2025); [reflexivity|].
  cbn. lia.
Defined.

End CashFlowFacts.

Module DebtFacts.
Import CashFlow CashFlowAux.

Lemma qpow_Qpower t k : ~ t == 0 -> t ^ Z.of_nat k == qpow t k.
Proof.
  intros Ht. induction k as [|k IH]; [reflexivity|].
  rewrite Nat2Z.inj_succ, <- Z.add_1_r, Qpower_plus by exact Ht.
  cbn [qpow]. rewrite IH. simpl. ring.
Qed.

Lemma qpow_gt1 t k : 1 < t -> (1 <= k)%nat -> 1 < qpow t k.
Proof.
  intros Ht Hk. induction k as [|k IH]; [lia|].
  destruct k as [|k]; cbn [qpow]; [lra|].
  assert (1 < qpow t (S k)) by (apply IH; lia).
  cbn [qpow] in *. nra.
Qed.

Lemma bal_iter_closed r a k bal :
  ~ r == 0 ->
  bal_iter r a k bal == bal * qpow (1 + r) k - a * (qpow (1 + r) k - 1) / r.
Proof.
  intros Hr. revert bal; induction k as [|k IH]; intros bal; cbn [bal_iter qpow].
  - field. exact Hr.
  - rewrite IH. field. exact Hr.
Qed.

Lemma length_list_set xs i v : List.length (list_set xs i v) = List.length xs.
Proof.
  revert i; induction xs as [|x xs IH]; intros [|i]; simpl; auto.
Qed.

Lemma nth_list_set_eq xs i v : (i < List.length xs)%nat -> nth i (list_set xs i v) 0 = v.
Proof.
  revert i; induction xs as [|x xs IH]; intros [|i] Hi; simpl in *; try lia; auto.
  apply IH; lia.
Qed.

Lemma nth_list_set_neq xs i j v : j <> i -> nth j (list_set xs i v) 0 = nth j xs 0.
Proof.
  revert i j; induction xs as [|x xs IH]; intros [|i] [|j] Hji; simpl;
    try lia; auto; apply IH; lia.
Qed.

Lemma qsum_list_set xs i v :
  (i < List.length xs)%nat -> qsum (list_set xs i v) == qsum xs - nth i xs 0 + v.
Proof.
  unfold qsum. revert i; induction xs as [|x xs IH]; intros [|i] Hi; simpl in *; try lia.
  - ring.
  - rewrite IH by lia. ring.
Qed.

Lemma qsum_repeat0 n : qsum (repeat 0 n) == 0.
Proof.
  unfold qsum. induction n as [|n IH]; simpl; [reflexivity|]. rewrite IH. reflexivity.
Qed.

Lemma amortize_length r a k i P I bal :
  List.length (fst (amortize r a k i P I bal)) = List.length P /\
  List.length (snd (amortize r a k i P I bal)) = List.length I.
Proof.
  revert i P I bal; induction k as [|k IH]; intros i P I bal; cbn [amortize]; [auto|].
  destruct (IH (S i) (list_set P i (a - bal * r)) (list_set I i (bal * r))
    (bal - (a - bal * r))) as [H1 H2].
  rewrite H1, H2, !length_list_set. auto.
Qed.

Lemma amortize_keep r a k i P I bal j :
  (j < i)%nat ->
  nth j (fst (amortize r a k i P I bal)) 0 = nth j P 0 /\
  nth j (snd (amortize r a k i P I bal)) 0 = nth j I 0.
Proof.
  revert i P I bal; induction k as [|k IH]; intros i P I bal Hj; cbn [amortize]; [auto|].
  destruct (IH (S i) (list_set P i (a - bal * r)) (list_set I i (bal * r))
    (bal - (a - bal * r))) as [H1 H2]; [lia|].
  rewrite H1, H2, !nth_list_set_neq by lia. auto.
Qed.

Lemma amortize_pair r a k i P I bal j :
  (i + k <= List.length P)%nat -> (i + k <= List.length I)%nat ->
  (i <= j < i + k)%nat ->
  nth j (fst (amortize r a k i P I bal)) 0 + nth j (snd (amortize r a k i P I bal)) 0 == a.
Proof.
  revert i P I bal; induction k as [|k IH]; intros i P I bal HP HI Hj; [lia|].
  cbn [amortize].
  destruct (Nat.eq_dec j i) as [->|Hne].
  - destruct (amortize_keep r a k (S i) (list_set P i (a - bal * r))
      (list_set I i (bal * r)) (bal - (a - bal * r)) i) as [H1 H2]; [lia|].
    rewrite H1, H2, !nth_list_set_eq by lia. ring.
  - apply IH; rewrite ?length_list_set; lia.
Qed.

Lemma amortize_sum r a k i P I bal :
  (i + k <= List.length P)%nat ->
  (forall j, (i <= j < i + k)%nat -> nth j P 0 = 0) ->
  qsum (fst (amortize r a k i P I bal)) == qsum P + (bal - bal_iter r a k bal).
Proof.
  revert i P I bal; induction k as [|k IH]; intros i P I bal HP Hz; cbn [amortize bal_iter].
  - cbn [fst]. ring.
  - rewrite IH.
    + rewrite qsum_list_set by lia. rewrite (Hz i) by lia. ring.
    + rewrite length_list_set; lia.
    + intros j Hj. rewrite nth_list_set_neq by lia. apply Hz; lia.
Qed.

(** C4: for a positive interest rate and a tenor of at least one year, the
    schedule of [calculate_debt_service] has one entry per year, principal
    plus interest equals the level annual debt service every year, and the
    principal repaid over the tenor sums to the debt amount
    [total_capex * debt_fraction], in exact arithmetic. *)
Theorem debt_amortization (total_capex debt_fraction interest_rate : Q) (tenor_years : Z)
  (Hr : 0 < interest_rate) (Ht : (1 <= tenor_years)%Z) :
  let ds := calculate_debt_service total_capex debt_fraction interest_rate tenor_years in
  List.length (principal_schedule ds) = Z.to_nat tenor_years /\
  List.length (interest_schedule ds) = Z.to_nat tenor_years /\
  (forall i, (i < Z.to_nat tenor_years)%nat ->
     nth i (principal_schedule ds) 0 + nth i (interest_schedule ds) 0 ==
     annual_debt_service ds) /\
  fold_right Qplus 0 (principal_schedule ds) == total_capex * debt_fraction.
Proof.
  unfold calculate_debt_service. cbv zeta.
  set (n := Z.to_nat tenor_years).
  set (a := - npf_pmt interest_rate tenor_years (total_capex * debt_fraction)).
  set (D := total_capex * debt_fraction).
  destruct (amortize_length interest_rate a n 0 (repeat 0 n) (repeat 0 n) D) as [L1 L2].
  pose proof (amortize_pair interest_rate a n 0 (repeat 0 n) (repeat 0 n) D) as Hp.
  pose proof (amortize_sum interest_rate a n 0 (repeat 0 n) (repeat 0 n) D) as Hs.
  destruct (amortize interest_rate a n 0 (repeat 0 n) (repeat 0 n) D) as [P I].
  cbn [fst snd] in *. cbn [principal_schedule interest_schedule annual_debt_service].
  rewrite repeat_length in L1, L2, Hp, Hs.
  split; [exact L1|]. split; [exact L2|]. split.
  - intros i Hi. apply Hp; lia.
  - change (fold_right Qplus 0 P) with (qsum P).
    rewrite Hs by (try lia; intros j Hj; apply nth_repeat_lt; lia).
    rewrite qsum_repeat0.
    assert (Hr0 : ~ interest_rate == 0) by (intros E; rewrite E in Hr; discriminate Hr).
    rewrite bal_iter_closed by exact Hr0.
    assert (Hq : 1 < qpow (1 + interest_rate) n) by (apply qpow_gt1; lra || lia).
    assert (Hq0 : ~ qpow (1 + interest_rate) n - 1 == 0) by lra.
    subst a. unfold npf_pmt.
    destruct (Qeq_bool interest_rate 0) eqn:E;
      [apply Qeq_bool_eq in E; contradiction|].
    replace tenor_years with (Z.of_nat n) by (subst n; lia).
    rewrite qpow_Qpower by lra.
    subst D. field. split; assumption.
Qed.

Lemma debt_amortization_witness :
  0 < 5 # 100 /\ (1 <= 3)%Z /\
  let ds := calculate_debt_service 1000 (1 # 2) (5 # 100) 3 in
  List.length (principal_schedule ds) = 3%nat /\
  List.length (interest_schedule ds) = 3%nat /\
  (forall i, (i < 3)%nat ->
     nth i (principal_schedule ds) 0 + nth i (interest_schedule ds) 0 ==
     annual_debt_service ds) /\
  fold_right Qplus 0 (principal_schedule ds) == 1000 * (1 # 2).
Proof.
  split; [reflexivity|]. split; [lia|].
  exact (debt_amortization 1000 (1 # 2) (5 # 100) 3 eq_refl ltac:(lia)).
Defined.

End DebtFacts.

Module CarbonPricingFacts.
Import CarbonPricing.

Lemma lookup_In traj y p : lookup traj y = Some p -> In (y, p) traj.
Proof.
  induction traj as [|[y' p'] traj IH]; simpl; [discriminate|].
  destruct (Z.eqb_spec y' y) as [->|_]; [intros [= <-]; left; reflexivity|].
  intros H; right; exact (IH H).
Qed.

Lemma lookup_some traj y : In y (map fst traj) -> exists p, lookup traj y = Some p.
Proof.
  induction traj as [|[y' p'] traj IH]; simpl; [tauto|].
  destruct (Z.eqb_spec y' y) as [->|Hne]; [eauto|].
  intros [->|H]; [contradiction|exact (IH H)].
Qed.

Lemma In_insert_Z x y ys : In y (insert_Z x ys) -> y = x \/ In y ys.
Proof.
  induction ys as [|y' ys IH]; simpl; [intuition|].
  destruct (x <=? y')%Z; simpl; intuition.
Qed.

Lemma In_sort_Z y xs : In y (sort_Z xs) -> In y xs.
Proof.
  induction xs as [|x xs IH]; simpl; [tauto|].
  intros H. apply In_insert_Z in H. intuition.
Qed.

Lemma insert_Z_nil x ys : insert_Z x ys <> [].
Proof. destruct ys; simpl; [discriminate|]. destruct (x <=? z)%Z; discriminate. Qed.

Lemma last_In_cons (x d : Z) l : In (last (x :: l) d) (x :: l).
Proof.
  revert x; induction l as [|x' l IH]; intros x; [left; reflexivity|].
  right. apply IH.
Qed.

Lemma zero_lookup traj y :
  Forall (fun kv => snd kv == 0) traj -> In y (sort_Z (map fst traj)) ->
  exists p, lookup traj y = Some p /\ p == 0.
Proof.
  intros Hz Hin. apply In_sort_Z, lookup_some in Hin. destruct Hin as [p Hp].
  exists p. split; [exact Hp|].
  apply lookup_In in Hp. rewrite Forall_forall in Hz. exact (Hz _ Hp).
Qed.

Lemma interp_loop_zero traj year ys fb :
  (forall y, In y ys -> exists p, lookup traj y = Some p /\ p == 0) ->
  (exists p, fb = Some p /\ p == 0) ->
  exists p, interp_loop traj year ys fb = Some p /\ p == 0.
Proof.
  intros Hys Hfb. induction ys as [|y0 ys IH]; [exact Hfb|].
  destruct ys as [|y1 ys]; [exact Hfb|].
  cbn [interp_loop].
  destruct ((y0 <=? year)%Z && (year <=? y1)%Z).
  - destruct (Hys y0) as [p0 [E0 H0]]; [left; reflexivity|].
    destruct (Hys y1) as [p1 [E1 H1]]; [right; left; reflexivity|].
    rewrite E0, E1. eexists; split; [reflexivity|]. rewrite H0, H1. ring.
  - apply IH. intros y Hy. apply Hys. right. exact Hy.
Qed.

(** A trajectory whose prices are all zero prices every year at zero. *)
Lemma zero_trajectory_price rpow traj year :
  Forall (fun kv => snd kv == 0) traj ->
  exists p, get_carbon_price_traj rpow traj year = Some p /\ p == 0.
Proof.
  intros Hz. unfold get_carbon_price_traj.
  destruct traj as [|kv traj']; [exists 0; split; reflexivity|].
  set (T := kv :: traj') in *.
  assert (Hin : forall y, In y (sort_Z (map fst T)) ->
    exists p, lookup T y = Some p /\ p == 0) by (intros y; apply zero_lookup, Hz).
  destruct (sort_Z (map fst T)) as [|first rest] eqn:Hs.
  - exfalso. exact (insert_Z_nil _ _ Hs).
  - destruct (year <=? first)%Z; [apply Hin; left; reflexivity|].
    destruct (last (first :: rest) first <=? year)%Z.
    + assert (Hl : exists p, lookup T (last (first :: rest) first) = Some p /\ p == 0)
        by (apply Hin, last_In_cons).
      destruct (2 <=? List.length (first :: rest))%nat; [|exact Hl].
      destruct (Hin (nth (List.length (first :: rest) - 2) (first :: rest) first))
        as [p1 [E1 H1]]; [apply nth_In; simpl; lia|].
      destruct Hl as [p2 [E2 H2]]. rewrite E1, E2.
      destruct (qlt 0 p1) eqn:Ep.
      * apply qlt_true in Ep. exfalso. rewrite H1 in Ep. discriminate Ep.
      * eauto.
    + apply interp_loop_zero; [exact Hin|]. apply Hin, last_In_cons.
Qed.

(** C9: the no-policy baseline prices carbon at 0 in every year, before
    2024, within 2024-2060 and beyond 2060, whatever [float ** float]
    returns. *)
Theorem no_policy_price_zero (rpow : Q -> Q -> Q) (year : Z) :
  exists p, get_carbon_price rpow create_no_policy_baseline year = Some p /\ p == 0.
Proof.
  apply zero_trajectory_price. cbn [price_trajectory create_no_policy_baseline].
  apply Forall_forall. intros kv Hkv. apply in_map_iff in Hkv.
  destruct Hkv as [k [<- _]]. reflexivity.
Qed.

End CarbonPricingFacts.

Module RunnerFacts.
Import Runner RunnerAux.

(** C2 (as the code behaves): a transition scenario name with no row (or an
    empty row) in the policy catalog fails with a [ValueError] whose message
    names it; a physical scenario name that is neither a CLIMADA hazard, nor
    ["severe_drought"], nor a risk level, and has no row (or an empty row),
    does not fail: the Low-risk baseline scenario is returned in its place. *)
Theorem scenario_lookup_unknown (py_float : string -> option Q)
  (self : CRPModelRunner) (name : string) :
  (row_falsy (dict_get (policy_scenarios self) name) = true ->
   _load_transition_scenario py_float self name =
     Err (ValueError ("Transition scenario '" ++ name ++ "' not found"))) /\
  (dict_get (climada_hazards self) name = None ->
   String.eqb name "severe_drought" = false ->
   existsb (String.eqb (lower name)) ["low"; "medium"; "high"; "extreme"]%string = false ->
   row_falsy (dict_get (physical_risks self) name) = true ->
   _load_physical_scenario py_float self name =
     Ok (Scenario (get_physical_risk_scenario "Low"))).
Proof.
  split.
  - unfold _load_transition_scenario, row_falsy.
    destruct (dict_get (policy_scenarios self) name) as [[|c r]|]; intros H;
      [reflexivity|discriminate H|reflexivity].
  - intros Hc Hs Hl Hr. unfold _load_physical_scenario.
    rewrite Hc, Hs, Hl. unfold row_falsy in Hr.
    destruct (dict_get (physical_risks self) name) as [[|c r]|];
      [reflexivity|discriminate Hr|reflexivity].
Qed.

Lemma scenario_lookup_unknown_witness :
  let name := "typhoon"%string in
  (row_falsy (dict_get (policy_scenarios empty_runner) name) = true /\
   _load_transition_scenario (fun _ => None) empty_runner name =
     Err (ValueError ("Transition scenario '" ++ name ++ "' not found"))) /\
  (dict_get (climada_hazards empty_runner) name = None /\
   String.eqb name "severe_drought" = false /\
   existsb (String.eqb (lower name)) ["low"; "medium"; "high"; "extreme"]%string = false /\
   row_falsy (dict_get (physical_risks empty_runner) name) = true /\
   _load_physical_scenario (fun _ => None) empty_runner name =
     Ok (Scenario (get_physical_risk_scenario "Low"))).
Proof.
  intros name.
  destruct (scenario_lookup_unknown (fun _ => None) empty_runner name) as [Ht Hp].
  split; [split; [reflexivity|apply Ht; reflexivity]|].
  split; [reflexivity|]. split; [reflexivity|]. split; [reflexivity|].
  split; [reflexivity|]. apply Hp; reflexivity.
Defined.

(** C2: a physical scenario name absent from every catalog does not make
    the lookup fail: ["typhoon"], unknown to an empty runner, silently
    yields the Low-risk baseline scenario. *)
Lemma physical_lookup_unknown_name :
  dict_mem (physical_risks empty_runner) "typhoon" = false /\
  dict_mem (climada_hazards empty_runner) "typhoon" = false /\
  _load_physical_scenario (fun _ => None) empty_runner "typhoon" =
    Ok (Scenario {| ps_name := "Low Risk"; wildfire_outage_rate := 0; drought_derate := 0;
                    cooling_temp_penalty := 0; water_availability_pct := 100 |}).
Proof.
  split; [reflexivity|]. split; [reflexivity|]. vm_compute. reflexivity.
Qed.

End RunnerFacts.

Module CreditRatingMoreFacts.
Import CreditRating RatingAux CreditRatingFacts.

Lemma spread_lt_iff r1 r2 : to_spread_bps r1 < to_spread_bps r2 <-> (value r1 < value r2)%Z.
Proof.
  destruct r1, r2; cbn [to_spread_bps value]; unfold Qlt; simpl; lia.
Qed.

Lemma spread_eq_iff r1 r2 : to_spread_bps r1 == to_spread_bps r2 <-> r1 = r2.
Proof.
  destruct r1, r2; cbn [to_spread_bps]; unfold Qeq; simpl;
    split; intros H; try lia; try discriminate H; reflexivity.
Qed.

Lemma value_inj r1 r2 : value r1 = value r2 -> r1 = r2.
Proof. destruct r1, r2; simpl; intros H; congruence. Qed.

(** [df * x + (1 - df) * y] is positive for positive [x], [y] and a weight
    [df] in [0, 1]. *)
Lemma convex_pos df x y : 0 <= df <= 1 -> 0 < x -> 0 < y -> 0 < df * x + (1 - df) * y.
Proof.
  intros [H0 H1] Hx Hy.
  destruct (Qlt_le_dec 0 df) as [Hp|Hz].
  - assert (0 < df * x) by (apply Qmult_lt_0_compat; assumption).
    assert (0 <= (1 - df) * y) by (apply Qmult_le_0_compat; lra).
    lra.
  - setoid_replace df with 0 by lra. lra.
Qed.

Lemma crp_closed (b s : Rating) rf df eq :
  calculate_crp_from_ratings b s rf df eq ==
    df * (to_spread_bps s - to_spread_bps b) + (1 - df) * (inject_Z (value s - value b) * 50).
Proof. unfold calculate_crp_from_ratings. field. Qed.

Lemma crp_sign (b s : Rating) rf df eq :
  0 <= df <= 1 ->
  (0 < calculate_crp_from_ratings b s rf df eq <-> (value b < value s)%Z) /\
  (calculate_crp_from_ratings b s rf df eq < 0 <-> (value s < value b)%Z) /\
  (calculate_crp_from_ratings b s rf df eq == 0 <-> b = s).
Proof.
  intros Hdf. rewrite crp_closed.
  destruct (Z.lt_trichotomy (value b) (value s)) as [Hlt|[Heq|Hgt]].
  - assert (0 < df * (to_spread_bps s - to_spread_bps b)
                + (1 - df) * (inject_Z (value s - value b) * 50)).
    { apply convex_pos; [exact Hdf| |].
      - apply spread_lt_iff in Hlt. lra.
      - assert (Hz : (0 < value s - value b)%Z) by lia.
        rewrite Zlt_Qlt in Hz. unfold inject_Z at 1 in Hz. lra. }
    split; [split; [intros; exact Hlt|intros; lra]|].
    split; [split; [intros; lra|lia]|].
    split; [intros; lra|intros ->; lia].
  - apply value_inj in Heq. subst s. rewrite Z.sub_diag.
    setoid_replace (to_spread_bps b - to_spread_bps b) with 0 by ring.
    setoid_replace (inject_Z 0 * 50) with 0 by reflexivity.
    split; [split; [lra|lia]|]. split; [split; [lra|lia]|]. split; [reflexivity|lra].
  - assert (0 < df * (to_spread_bps b - to_spread_bps s)
                + (1 - df) * (inject_Z (value b - value s) * 50)).
    { apply convex_pos; [exact Hdf| |].
      - apply spread_lt_iff in Hgt. lra.
      - assert (Hz : (0 < value b - value s)%Z) by lia.
        rewrite Zlt_Qlt in Hz. unfold inject_Z at 1 in Hz. lra. }
    assert (E : inject_Z (value s - value b) == - inject_Z (value b - value s)).
    { rewrite <- inject_Z_opp. apply inject_Z_injective. lia. }
    rewrite E.
    split; [split; [intros; lra|lia]|].
    split; [split; [intros; exact Hgt|intros; lra]|].
    split; [intros; lra|intros ->; lia].
Qed.

Lemma str_neq_down (x : string) : ("Downgrade by " ++ x)%string <> "No change"%string.
Proof. discriminate. Qed.

Lemma str_neq_up (x : string) : ("Upgrade by " ++ x)%string <> "No change"%string.
Proof. discriminate. Qed.

Lemma max_by_snd_In x0 xs : In (max_by_snd x0 xs) (x0 :: xs).
Proof.
  revert x0; induction xs as [|x xs IH]; intros x0; simpl; [left; reflexivity|].
  destruct (snd x0 <? snd x)%Z.
  - destruct (IH x) as [H|H]; [right; left; exact H|right; right; exact H].
  - destruct (IH x0) as [H|H]; [left; exact H|right; right; exact H].
Qed.

Lemma max_by_snd_ge x0 xs : forall y, In y (x0 :: xs) -> (snd y <= snd (max_by_snd x0 xs))%Z.
Proof.
  revert x0; induction xs as [|x xs IH]; intros x0 y Hy; simpl.
  - destruct Hy as [<-|[]]; lia.
  - assert (Hm : forall z, (snd z <= snd (max_by_snd z xs))%Z)
      by (intros z; apply IH; left; reflexivity).
    destruct (snd x0 <? snd x)%Z eqn:E; [apply Z.ltb_lt in E|apply Z.ltb_ge in E].
    + destruct Hy as [<-|Hy].
      * specialize (Hm x); lia.
      * apply IH; exact Hy.
    + destruct Hy as [<-|[<-|Hy]].
      * apply Hm.
      * specialize (Hm x0); lia.
      * apply IH; right; exact Hy.
Qed.

Lemma rate_capacity_antitone x1 x2 :
  x2 <= x1 -> (value (rate_capacity x1) <= value (rate_capacity x2))%Z.
Proof.
  intros H. unfold rate_capacity.
  repeat peel_if; qcmp; cbn [value]; try lia; exfalso; lra.
Qed.

Lemma rate_coverage_antitone x1 x2 :
  x2 <= x1 -> (value (rate_coverage x1) <= value (rate_coverage x2))%Z.
Proof.
  intros H. unfold rate_coverage.
  repeat peel_if; qcmp; cbn [value]; try lia; exfalso; lra.
Qed.

Lemma rate_profitability_mono x1 x2 n1 n2 :
  x2 <= x1 -> (n1 = true -> n2 = true) ->
  (value (rate_profitability x1 n1) <= value (rate_profitability x2 n2))%Z.
Proof.
  intros H Hn. destruct n1.
  - rewrite (Hn eq_refl). simpl. lia.
  - destruct n2; unfold rate_profitability; cbn [orb];
      repeat peel_if; qcmp; cbn [value]; try lia; exfalso; lra.
Qed.

Lemma rate_net_debt_leverage_mono x1 x2 n1 n2 :
  x1 <= x2 -> (n1 = true -> n2 = true) ->
  (value (rate_net_debt_leverage x1 n1) <= value (rate_net_debt_leverage x2 n2))%Z.
Proof.
  intros H Hn. destruct n1.
  - rewrite (Hn eq_refl). simpl. lia.
  - destruct n2; unfold rate_net_debt_leverage;
      repeat peel_if; qcmp; cbn [value]; try lia; exfalso; lra.
Qed.

Lemma rate_equity_leverage_mono x1 x2 :
  x1 <= x2 -> (value (rate_equity_leverage x1) <= value (rate_equity_leverage x2))%Z.
Proof.
  intros H. unfold rate_equity_leverage.
  repeat peel_if; qcmp; cbn [value]; try lia; exfalso; lra.
Qed.

Lemma rate_asset_leverage_mono x1 x2 :
  x1 <= x2 -> (value (rate_asset_leverage x1) <= value (rate_asset_leverage x2))%Z.
Proof.
  intros H. unfold rate_asset_leverage.
  repeat peel_if; qcmp; cbn [value]; try lia; exfalso; lra.
Qed.

Section Worse.
Variables c1 c2 : ComponentRatings.
Hypothesis Hcap : (value (cr_capacity c1) <= value (cr_capacity c2))%Z.
Hypothesis Hprof : (value (cr_profitability c1) <= value (cr_profitability c2))%Z.
Hypothesis Hcov : (value (cr_coverage c1) <= value (cr_coverage c2))%Z.
Hypothesis Hdscr : (value (cr_dscr c1) <= value (cr_dscr c2))%Z.
Hypothesis Hnd : (value (cr_net_debt_leverage c1) <= value (cr_net_debt_leverage c2))%Z.
Hypothesis Heq : (value (cr_equity_leverage c1) <= value (cr_equity_leverage c2))%Z.
Hypothesis Has : (value (cr_asset_leverage c1) <= value (cr_asset_leverage c2))%Z.

Lemma weighted_score_worse : weighted_score c1 <= weighted_score c2.
Proof.
  destruct c1, c2; simpl in *.
  unfold weighted_score, weights; simpl.
  rewrite Zle_Qle in Hcap, Hprof, Hcov, Hdscr, Hnd, Heq, Has. lra.
Qed.

Lemma dmax_distress_worse : (dmax (distress_of c1) <= dmax (distress_of c2))%Z.
Proof.
  destruct c1 as [a1 b1 e1 d1 f1 g1 h1], c2 as [a2 b2 e2 d2 f2 g2 h2];
    simpl in *.
  unfold distress_of, critical_ratings. cbn [filter cr_dscr cr_coverage cr_profitability].
  destruct (7 <=? value d1)%Z eqn:E1, (7 <=? value d2)%Z eqn:E2,
           (7 <=? value e1)%Z eqn:E3, (7 <=? value e2)%Z eqn:E4,
           (7 <=? value b1)%Z eqn:E5, (7 <=? value b2)%Z eqn:E6;
    cbn [dmax fold_right]; rewrite ?Z.leb_le, ?Z.leb_gt in *; lia.
Qed.

Lemma overall_worse :
  (Z.max (clamped_score c1) (dmax (distress_of c1))
   <= Z.max (clamped_score c2) (dmax (distress_of c2)))%Z.
Proof.
  pose proof (py_round_mono _ _ weighted_score_worse).
  pose proof dmax_distress_worse.
  unfold clamped_score. lia.
Qed.

End Worse.

Lemma ebitda_negative_mono m1 m2 :
  ebitda_to_fixed_assets m2 <= ebitda_to_fixed_assets m1 ->
  (is_ebitda_negative m1 = true -> is_ebitda_negative m2 = true) ->
  ebitda_negative m1 = true -> ebitda_negative m2 = true.
Proof.
  unfold ebitda_negative. intros He Hn H.
  apply orb_true_iff in H. apply orb_true_iff.
  destruct H as [H|H]; [left; auto|right].
  apply qlt_true in H. apply qlt_of_lt. lra.
Qed.

(** Extra: [assess_credit_rating] is monotone in every metric: when every
    metric of [m2] is at most as good as that of [m1] (capacity,
    EBITDA/fixed assets, EBITDA/interest and DSCR no higher; net
    debt/EBITDA, debt/equity and debt/assets no lower; negative EBITDA
    flagged whenever it is for [m1]), the overall rating of [m2] is at
    least as bad (numerically at least as high) as that of [m1]. *)
Theorem assess_monotone (m1 m2 : RatingMetrics)
  (Hcap : capacity_mw m2 <= capacity_mw m1)
  (Hefa : ebitda_to_fixed_assets m2 <= ebitda_to_fixed_assets m1)
  (Hei : ebitda_to_interest m2 <= ebitda_to_interest m1)
  (Hd : dscr m2 <= dscr m1)
  (Hnd : net_debt_to_ebitda m1 <= net_debt_to_ebitda m2)
  (Hde : debt_to_equity m1 <= debt_to_equity m2)
  (Hda : debt_to_assets m1 <= debt_to_assets m2)
  (Hneg : is_ebitda_negative m1 = true -> is_ebitda_negative m2 = true) :
  exists a1 a2, assess_credit_rating m1 = Some a1 /\ assess_credit_rating m2 = Some a2 /\
    (value (overall_rating a1) <= value (overall_rating a2))%Z.
Proof.
  destruct (assess_overall m1) as [a1 [E1 [_ V1]]].
  destruct (assess_overall m2) as [a2 [E2 [_ V2]]].
  exists a1, a2. split; [exact E1|]. split; [exact E2|].
  rewrite V1, V2.
  pose proof (ebitda_negative_mono m1 m2 Hefa Hneg) as Hn.
  apply overall_worse; unfold components; cbn [cr_capacity cr_profitability cr_coverage
    cr_dscr cr_net_debt_leverage cr_equity_leverage cr_asset_leverage].
  - apply rate_capacity_antitone; exact Hcap.
  - apply rate_profitability_mono; assumption.
  - apply rate_coverage_antitone; exact Hei.
  - apply rate_dscr_antitone; exact Hd.
  - apply rate_net_debt_leverage_mono; assumption.
  - apply rate_equity_leverage_mono; exact Hde.
  - apply rate_asset_leverage_mono; exact Hda.
Qed.

Lemma assess_monotone_witness :
  capacity_mw distressed_metrics <= capacity_mw (metrics_with (1 # 10) 2) /\
  dscr distressed_metrics <= dscr (metrics_with (1 # 10) 2) /\
  exists a1 a2, assess_credit_rating (metrics_with (1 # 10) 2) = Some a1 /\
    assess_credit_rating distressed_metrics = Some a2 /\
    (value (overall_rating a1) <= value (overall_rating a2))%Z.
Proof.
  split; [apply Qle_bool_imp_le; reflexivity|].
  split; [apply Qle_bool_imp_le; reflexivity|].
  apply (assess_monotone (metrics_with (1 # 10) 2) distressed_metrics);
    try (apply Qle_bool_imp_le; reflexivity).
  intros H; exact H.
Defined.

(** Extra: a negative EBITDA passed to
    [calculate_rating_metrics_from_financials] always ends in a rating of
    CC or worse: whatever the other financials, the profitability and net
    debt components are CC, and the overall rating has value at least 8. *)
Theorem negative_ebitda_distressed (capacity_mw ebitda fixed_assets interest_expense
  total_debt cash_and_equivalents total_equity total_assets : Q)
  (dscr total_debt_service cfads : option Q) (consecutive_loss_years : Z)
  (Hneg : ebitda < 0) :
  exists a, assess_credit_rating
      (calculate_rating_metrics_from_financials capacity_mw ebitda fixed_assets
         interest_expense total_debt cash_and_equivalents total_equity total_assets
         dscr total_debt_service cfads consecutive_loss_years) = Some a /\
    cr_profitability (component_ratings a) = CC /\
    cr_net_debt_leverage (component_ratings a) = CC /\
    (8 <= value (overall_rating a))%Z.
Proof.
  set (M := calculate_rating_metrics_from_financials _ _ _ _ _ _ _ _ _ _ _ _).
  assert (HN : ebitda_negative M = true).
  { unfold ebitda_negative, M, calculate_rating_metrics_from_financials; cbv zeta.
    cbn [CreditRating.is_ebitda_negative]. rewrite (qlt_of_lt _ _ Hneg). reflexivity. }
  assert (HP : cr_profitability (components M) = CC)
    by (unfold components; cbn [cr_profitability]; rewrite HN; reflexivity).
  assert (HD : cr_net_debt_leverage (components M) = CC)
    by (unfold components; cbn [cr_net_debt_leverage]; rewrite HN; reflexivity).
  destruct (assess_overall M) as [a [Ha [Hc Hv]]].
  exists a. split; [exact Ha|]. rewrite Hc.
  split; [exact HP|]. split; [exact HD|].
  rewrite Hv.
  assert (In CC (distress_of (components M))).
  { unfold distress_of, critical_ratings. apply filter_In. split.
    - rewrite <- HP. right; right; left; reflexivity.
    - reflexivity. }
  pose proof (dmax_In _ _ H). simpl in H0. lia.
Qed.

Lemma negative_ebitda_distressed_witness :
  -50 < 0 /\
  exists a, assess_credit_rating
      (calculate_rating_metrics_from_financials 2100 (-50) 5000 100 3000 200 1000 6000
         None None None 1) = Some a /\
    cr_profitability (component_ratings a) = CC /\
    cr_net_debt_leverage (component_ratings a) = CC /\
    (8 <= value (overall_rating a))%Z.
Proof.
  split; [reflexivity|].
  apply negative_ebitda_distressed. reflexivity.
Defined.

(** Extra: the climate risk premium of [calculate_crp_from_ratings] does
    not depend on the risk-free rate or the baseline equity rate; it is
    the debt share times the spread difference plus the equity share
    times 50 bps per notch. *)
Theorem crp_decomposition (b s : Rating) (risk_free_rate debt_fraction baseline_equity_rate : Q) :
  calculate_crp_from_ratings b s risk_free_rate debt_fraction baseline_equity_rate ==
    debt_fraction * (to_spread_bps s - to_spread_bps b)
    + (1 - debt_fraction) * (inject_Z (value s - value b) * 50).
Proof. apply crp_closed. Qed.

(** Extra: for a debt fraction in [0, 1], the premium of
    [calculate_crp_from_ratings] is positive exactly for a downgrade,
    negative exactly for an upgrade, and zero exactly when both ratings
    are the same. *)
Theorem crp_sign_notch (b s : Rating) (risk_free_rate debt_fraction baseline_equity_rate : Q)
  (Hdf : 0 <= debt_fraction <= 1) :
  (0 < calculate_crp_from_ratings b s risk_free_rate debt_fraction baseline_equity_rate
     <-> (value b < value s)%Z) /\
  (calculate_crp_from_ratings b s risk_free_rate debt_fraction baseline_equity_rate < 0
     <-> (value s < value b)%Z) /\
  (calculate_crp_from_ratings b s risk_free_rate debt_fraction baseline_equity_rate == 0
     <-> b = s).
Proof. apply crp_sign; exact Hdf. Qed.

Lemma crp_sign_notch_witness :
  0 <= 7 # 10 <= 1 /\
  (0 < calculate_crp_from_ratings A CCC (3 # 100) (7 # 10) (12 # 100)
     <-> (value A < value CCC)%Z) /\
  (calculate_crp_from_ratings A CCC (3 # 100) (7 # 10) (12 # 100) < 0
     <-> (value CCC < value A)%Z) /\
  (calculate_crp_from_ratings A CCC (3 # 100) (7 # 10) (12 # 100) == 0 <-> A = CCC).
Proof.
  assert (Hdf : 0 <= 7 # 10 <= 1)
    by (split; apply Qle_bool_imp_le; reflexivity).
  split; [exact Hdf|]. apply crp_sign_notch; exact Hdf.
Defined.

(** Extra: [to_spread_bps] is strictly increasing along the scale: a
    strictly worse rating has a strictly higher spread. *)
Theorem spread_strictly_increasing (r1 r2 : Rating) (Hlt : (value r1 < value r2)%Z) :
  to_spread_bps r1 < to_spread_bps r2.
Proof. apply spread_lt_iff; exact Hlt. Qed.

Lemma spread_strictly_increasing_witness :
  (value BBB < value BB)%Z /\ to_spread_bps BBB < to_spread_bps BB.
Proof. split; [reflexivity|]. apply spread_strictly_increasing. reflexivity. Defined.

(** Extra: [assess_rating_with_counterfactual] never fails; its notch change
    is the scenario rating's value minus the counterfactual's (A by
    default); its premium is positive, negative or zero exactly when the
    notch change is; the migration text is "No change" exactly for a zero
    notch change; and against the default counterfactual the scenario is
    investment grade exactly when it is at most one notch below A. *)
Theorem counterfactual_consistent (m : RatingMetrics) (cf : option Rating) :
  exists res a, assess_rating_with_counterfactual m cf = Some res /\
    assess_credit_rating m = Some a /\ ca_scenario_assessment res = a /\
    ca_notch_change res =
      (value (overall_rating a) - value (match cf with None => A | Some r => r end))%Z /\
    (0 < ca_crp_bps res <-> (0 < ca_notch_change res)%Z) /\
    (ca_crp_bps res < 0 <-> (ca_notch_change res < 0)%Z) /\
    (ca_crp_bps res == 0 <-> ca_notch_change res = 0%Z) /\
    (ca_rating_migration res = "No change"%string <-> ca_notch_change res = 0%Z) /\
    (cf = None -> ca_is_investment_grade res = (ca_notch_change res <=? 1)%Z).
Proof.
  destruct (assess_overall m) as [a [Ha _]].
  unfold assess_rating_with_counterfactual. rewrite Ha.
  set (cfr := match cf with None => get_counterfactual_baseline_rating | Some r => r end).
  set (sr := overall_rating a).
  eexists; exists a. split; [reflexivity|]. split; [reflexivity|].
  cbn [ca_scenario_assessment ca_notch_change ca_crp_bps ca_rating_migration
       ca_is_investment_grade].
  split; [reflexivity|].
  split; [destruct cf; reflexivity|].
  assert (Hdf : 0 <= 70 # 100 <= 1) by (split; apply Qle_bool_imp_le; reflexivity).
  destruct (crp_sign cfr sr (3 # 100) (70 # 100) (12 # 100) Hdf) as [Hp [Hn Hz]].
  split; [rewrite Hp; lia|].
  split; [rewrite Hn; lia|].
  split.
  { rewrite Hz. split; [intros ->; lia|intros H; apply value_inj; lia]. }
  split.
  { destruct (value sr - value cfr =? 0)%Z eqn:E0; [apply Z.eqb_eq in E0|apply Z.eqb_neq in E0].
    - split; [intros _; exact E0|reflexivity].
    - split; [|intros H; contradiction].
      destruct (0 <? value sr - value cfr)%Z;
        [intros H; exfalso; exact (str_neq_down _ H)|intros H; exfalso; exact (str_neq_up _ H)]. }
  intros ->. unfold cfr, get_counterfactual_baseline_rating, is_investment_grade.
  destruct sr; reflexivity.
Qed.

(** Extra: [rating_migration_analysis] reports a spread change of the same
    sign as the notch change, the text "No Change" exactly for a zero
    notch change, and as worst deterioration one of the seven per-metric
    changes that is at least every one of them. *)
Theorem migration_analysis_consistent (b r : RatingAssessment) :
  let ma := rating_migration_analysis b r in
  (0 < ma_spread_increase_bps ma <-> (0 < ma_notch_change ma)%Z) /\
  (ma_spread_increase_bps ma < 0 <-> (ma_notch_change ma < 0)%Z) /\
  (ma_migration ma = "No Change"%string <-> ma_notch_change ma = 0%Z) /\
  List.length (ma_metric_changes ma) = 7%nat /\
  In (ma_worst_deteriorating_metric ma, ma_worst_deterioration_notches ma)
     (ma_metric_changes ma) /\
  (forall k v, In (k, v) (ma_metric_changes ma) -> (v <= ma_worst_deterioration_notches ma)%Z).
Proof.
  intros ma. unfold ma, rating_migration_analysis. cbv zeta.
  cbn [ma_spread_increase_bps ma_notch_change ma_migration ma_metric_changes
       ma_worst_deteriorating_metric ma_worst_deterioration_notches].
  set (rb := overall_rating b). set (rr := overall_rating r).
  split.
  { split; intros H.
    - assert (to_spread_bps rb < to_spread_bps rr) by lra.
      apply spread_lt_iff in H0. lia.
    - assert (to_spread_bps rb < to_spread_bps rr) by (apply spread_lt_iff; lia). lra. }
  split.
  { split; intros H.
    - assert (to_spread_bps rr < to_spread_bps rb) by lra.
      apply spread_lt_iff in H0. lia.
    - assert (to_spread_bps rr < to_spread_bps rb) by (apply spread_lt_iff; lia). lra. }
  split.
  { destruct (value rr - value rb =? 0)%Z eqn:E0; [apply Z.eqb_eq in E0|apply Z.eqb_neq in E0].
    - split; [intros _; exact E0|reflexivity].
    - split; [|intros H; contradiction].
      destruct (0 <? value rr - value rb)%Z; intros H; discriminate H. }
  set (ch := metric_changes (component_ratings b) (component_ratings r)).
  assert (Hch : exists x0 xs, ch = x0 :: xs /\ List.length xs = 6%nat)
    by (eexists; eexists; split; reflexivity).
  destruct Hch as [x0 [xs [-> Hl]]].
  split; [simpl; rewrite Hl; reflexivity|].
  split.
  - rewrite <- surjective_pairing. apply max_by_snd_In.
  - intros k v Hin. apply (max_by_snd_ge x0 xs (k, v) Hin).
Qed.

End CreditRatingMoreFacts.

Module CashFlowMoreFacts.
Import CashFlow CashFlowAux CashFlowFacts DebtFacts.

Lemma nth_repeat0 n i : nth i (repeat 0 n) 0 = 0.
Proof. revert i; induction n as [|n IH]; intros [|i]; simpl; auto. Qed.

Lemma nth_list_set_cases xs i v j :
  nth j (list_set xs i v) 0 = v \/ nth j (list_set xs i v) 0 = nth j xs 0.
Proof.
  revert i j; induction xs as [|x xs IH]; intros [|i] [|j]; simpl; auto.
Qed.

Lemma interest_loop_step r a i idx ie bal :
  interest_loop r a (i :: idx) (ie, bal) =
  interest_loop r a idx
    (list_set ie i (bal * r),
     if qlt (bal - (a - bal * r)) 0 then 0 else bal - (a - bal * r)).
Proof. reflexivity. Qed.

Lemma interest_loop_length r a idx ie bal :
  List.length (fst (interest_loop r a idx (ie, bal))) = List.length ie.
Proof.
  revert ie bal; induction idx as [|i idx IH]; intros ie bal; [reflexivity|].
  rewrite interest_loop_step, IH. apply length_list_set.
Qed.

Lemma interest_loop_keep r a idx ie bal j :
  ~ In j idx -> nth j (fst (interest_loop r a idx (ie, bal))) 0 = nth j ie 0.
Proof.
  revert ie bal; induction idx as [|i idx IH]; intros ie bal Hj; [reflexivity|].
  rewrite interest_loop_step, IH by (intros H; apply Hj; right; exact H).
  apply nth_list_set_neq. intros ->. apply Hj; left; reflexivity.
Qed.

Lemma interest_loop_nonneg r a idx ie bal :
  0 <= r -> 0 <= bal -> (forall j, 0 <= nth j ie 0) ->
  forall j, 0 <= nth j (fst (interest_loop r a idx (ie, bal))) 0.
Proof.
  intros Hr. revert ie bal; induction idx as [|i idx IH]; intros ie bal Hb Hie j;
    [apply Hie|].
  rewrite interest_loop_step. apply IH.
  - destruct (qlt _ 0) eqn:E; [lra|]. qcmp. lra.
  - intros k. destruct (nth_list_set_cases ie i (bal * r) k) as [-> | ->];
      [apply Qmult_le_0_compat; assumption|apply Hie].
Qed.

Ltac lens' :=
  unfold vsub, vadd, vmul;
  repeat (rewrite ?length_vzip, ?length_map, ?repeat_length, ?length_seq,
                  ?interest_loop_length);
  lia.

(** Unfold a successful [compute_cashflows_timeseries] and split on
    whether the interest loop runs. *)
Ltac open_cf' H :=
  open_cf H;
  match goal with
  | |- context [if ?c then fst (interest_loop _ _ _ _) else _] =>
      let E := fresh "Ed" in destruct c eqn:Ed
  | _ => idtac
  end.

Lemma cf_lengths plant_params ts ta pa ms start_year cf :
  compute_cashflows_timeseries plant_params ts ta pa ms start_year = Some cf ->
  List.length (years cf) = operating_years ta /\
  Forall (fun l => List.length l = operating_years ta)
    [revenue cf; fuel_costs cf; variable_opex cf; fixed_opex cf; carbon_costs cf;
     outage_costs cf; total_costs cf; ebitda cf; depreciation cf; ebit cf;
     interest_expense cf; tax_expense cf; net_income cf; capex cf;
     free_cash_flow cf; cf_capacity_factor cf].
Proof.
  intros H. destruct ms as [m|]; open_cf' H; cbn [years revenue fuel_costs variable_opex
    fixed_opex carbon_costs outage_costs total_costs ebitda depreciation ebit
    interest_expense tax_expense net_income capex free_cash_flow cf_capacity_factor];
    (split; [lens'|]); apply Forall_forall; intros l Hl;
    repeat (destruct Hl as [Hl'|Hl]; [subst l; lens'|]); destruct Hl.
Qed.

(** Extra: in a computed cash-flow series, interest expense is zero in
    every year from [int(debt_tenor_years)] on, and in every year when the
    debt interest rate is not positive; and it is never negative when the
    CAPEX and the debt fraction are not. *)
Theorem interest_expense_schedule (plant_params : Params) (ts : TransitionScenario)
  (ta : TransitionAdjustments) (pa : PhysicalAdjustments)
  (ms : option MarketScenario) (start_year : Z) (cf : CashFlowTimeSeries)
  (H : compute_cashflows_timeseries plant_params ts ta pa ms start_year = Some cf) :
  (forall i, (py_int (pget plant_params "debt_tenor_years" 20) <= Z.of_nat i)%Z ->
     nth i (interest_expense cf) 0 = 0) /\
  (pget plant_params "debt_interest_rate" (5 # 100) <= 0 ->
     forall i, nth i (interest_expense cf) 0 = 0) /\
  (0 <= pget plant_params "total_capex_million" 3200 ->
   0 <= pget plant_params "debt_fraction" (70 # 100) ->
     forall i, 0 <= nth i (interest_expense cf) 0).
Proof.
  open_cf' H; cbn [interest_expense]; [|split; [intros; apply nth_repeat0|];
    split; [intros; apply nth_repeat0|intros; rewrite nth_repeat0; lra]].
  apply andb_true_iff in Ed. destruct Ed as [Er Et].
  apply qlt_true in Er.
  split; [|split].
  - intros i Hi. rewrite interest_loop_keep; [apply nth_repeat0|].
    rewrite in_seq. lia.
  - intros Hr. lra.
  - intros Hc Hf i. apply interest_loop_nonneg; [lra| |intros; rewrite nth_repeat0; lra].
    apply Qmult_le_0_compat; [|exact Hf].
    apply Qmult_le_0_compat; [exact Hc|]. discriminate.
Qed.

Lemma interest_expense_schedule_witness :
  exists cf,
    compute_cashflows_timeseries example_plant {| get_carbon_price := fun _ => 0 |}
      {| capacity_factor := 1 # 2; operating_years := 12 |}
      {| outage_rate := 0; capacity_derate := 0; efficiency_loss := 0;
         water_constrained_capacity := 1 |} None 2025 = Some cf /\
    (py_int (pget example_plant "debt_tenor_years" 20) <= Z.of_nat 10)%Z /\
    nth 10 (interest_expense cf) 0 = 0 /\
    0 <= pget example_plant "total_capex_million" 3200 /\
    0 <= pget example_plant "debt_fraction" (70 # 100) /\
    0 <= nth 3 (interest_expense cf) 0.
Proof.
  eexists. split; [reflexivity|].
  match goal with
  | |- context [interest_expense ?c] =>
      destruct (interest_expense_schedule example_plant {| get_carbon_price := fun _ => 0 |}
        {| capacity_factor := 1 # 2; operating_years := 12 |}
        {| outage_rate := 0; capacity_derate := 0; efficiency_loss := 0;
           water_constrained_capacity := 1 |} None 2025 c eq_refl) as [Ha [_ Hc]]
  end.
  assert (Ht : (py_int (pget example_plant "debt_tenor_years" 20) <= Z.of_nat 10)%Z)
    by (apply Z.leb_le; vm_compute; reflexivity).
  assert (Hk : 0 <= pget example_plant "total_capex_million" 3200)
    by (apply Qle_bool_imp_le; vm_compute; reflexivity).
  assert (Hf : 0 <= pget example_plant "debt_fraction" (70 # 100))
    by (apply Qle_bool_imp_le; vm_compute; reflexivity).
  split; [exact Ht|]. split; [apply Ha; exact Ht|].
  split; [exact Hk|]. split; [exact Hf|]. apply Hc; assumption.
Defined.

(** Extra: tax in a computed cash-flow series is never negative; net
    income never exceeds earnings before tax [ebit - interest]; and when
    [(ebit - interest) * tax_rate] is not negative, net income is
    [(ebit - interest) * (1 - tax_rate)]. *)
Theorem tax_and_net_income (plant_params : Params) (ts : TransitionScenario)
  (ta : TransitionAdjustments) (pa : PhysicalAdjustments)
  (ms : option MarketScenario) (start_year : Z) (cf : CashFlowTimeSeries)
  (H : compute_cashflows_timeseries plant_params ts ta pa ms start_year = Some cf)
  (i : nat) (Hi : (i < operating_years ta)%nat) :
  let ebt := nth i (ebit cf) 0 - nth i (interest_expense cf) 0 in
  let tax_rate := pget plant_params "tax_rate" (24 # 100) in
  0 <= nth i (tax_expense cf) 0 /\
  nth i (net_income cf) 0 <= ebt /\
  (0 <= ebt * tax_rate -> nth i (net_income cf) 0 == ebt * (1 - tax_rate)).
Proof.
  intros ebt tax_rate. unfold ebt, tax_rate. clear ebt tax_rate.
  pose proof (cf_lengths _ _ _ _ _ _ _ H) as [_ HL].
  rewrite Forall_forall in HL.
  assert (Le : List.length (ebit cf) = operating_years ta) by (apply HL; simpl; tauto).
  assert (Li : List.length (interest_expense cf) = operating_years ta)
    by (apply HL; simpl; tauto).
  assert (Ht : tax_expense cf = map (fun t => Qmax 0 (t * pget plant_params "tax_rate" (24 # 100)))
                                  (vsub (ebit cf) (interest_expense cf)) /\
               net_income cf = vsub (vsub (ebit cf) (interest_expense cf)) (tax_expense cf)).
  { destruct ms; open_cf H; split; reflexivity. }
  destruct Ht as [Ht Hn]. rewrite Hn, Ht. clear Hn Ht HL H.
  unfold vsub. rewrite (nth_vzip _ (vzip Qminus _ _)) by lens'.
  rewrite (nth_map_lt _ _ _ 0 0) by lens'. rewrite nth_vzip by lens'.
  set (t := (nth i (ebit cf) 0 - nth i (interest_expense cf) 0) * _).
  split; [apply Q.le_max_l|].
  split; [pose proof (Q.le_max_l 0 t); lra|].
  intros Hp. rewrite (Q.max_r 0 t Hp). unfold t. ring.
Qed.

Lemma tax_and_net_income_witness :
  exists cf,
    compute_cashflows_timeseries example_plant {| get_carbon_price := fun _ => 0 |}
      {| capacity_factor := 1 # 2; operating_years := 3 |}
      {| outage_rate := 0; capacity_derate := 0; efficiency_loss := 0;
         water_constrained_capacity := 1 |} None 2025 = Some cf /\
    (1 < 3)%nat /\
    0 <= nth 1 (tax_expense cf) 0 /\
    nth 1 (net_income cf) 0 <= nth 1 (ebit cf) 0 - nth 1 (interest_expense cf) 0.
Proof.
  eexists. split; [reflexivity|]. split; [lia|].
  match goal with
  | |- context [tax_expense ?c] =>
      destruct (tax_and_net_income example_plant {| get_carbon_price := fun _ => 0 |}
        {| capacity_factor := 1 # 2; operating_years := 3 |}
        {| outage_rate := 0; capacity_derate := 0; efficiency_loss := 0;
           water_constrained_capacity := 1 |} None 2025 c eq_refl 1 ltac:(simpl; lia))
        as [Ht [Hn _]]
  end.
  split; [exact Ht|exact Hn].
Defined.

(** Extra: free cash flow (and with it EBIT and EBITDA) of a computed
    series does not depend on the debt parameters: two plant dicts that
    agree on every key except [debt_fraction], [debt_interest_rate] and
    [debt_tenor_years] give the same series. *)
Theorem fcf_debt_independent (pp1 pp2 : Params) (ts : TransitionScenario)
  (ta : TransitionAdjustments) (pa : PhysicalAdjustments)
  (ms : option MarketScenario) (start_year : Z) (cf1 cf2 : CashFlowTimeSeries)
  (Hk : forall key d, key <> "debt_fraction"%string -> key <> "debt_interest_rate"%string ->
          key <> "debt_tenor_years"%string -> pget pp1 key d = pget pp2 key d)
  (H1 : compute_cashflows_timeseries pp1 ts ta pa ms start_year = Some cf1)
  (H2 : compute_cashflows_timeseries pp2 ts ta pa ms start_year = Some cf2) :
  free_cash_flow cf1 = free_cash_flow cf2 /\ ebit cf1 = ebit cf2 /\ ebitda cf1 = ebitda cf2.
Proof.
  open_cf H1. open_cf H2. cbn [free_cash_flow ebit ebitda].
  repeat match goal with
  | |- context [pget pp1 ?k ?d] => rewrite (Hk k d) by discriminate
  end.
  split; [reflexivity|split; reflexivity].
Qed.

Lemma fcf_debt_independent_witness :
  let pp2 := (("debt_fraction", 1 # 4) :: ("debt_tenor_years", 5) :: example_plant)%string in
  let ts := {| get_carbon_price := fun _ => 30 |} in
  let ta := {| capacity_factor := 1 # 2; operating_years := 3 |} in
  let pa := {| outage_rate := 0; capacity_derate := 0; efficiency_loss := 0;
               water_constrained_capacity := 1 |} in
  (forall key d, key <> "debt_fraction"%string -> key <> "debt_interest_rate"%string ->
     key <> "debt_tenor_years"%string -> pget example_plant key d = pget pp2 key d) /\
  exists cf1 cf2,
    compute_cashflows_timeseries example_plant ts ta pa None 2025 = Some cf1 /\
    compute_cashflows_timeseries pp2 ts ta pa None 2025 = Some cf2 /\
    free_cash_flow cf1 = free_cash_flow cf2.
Proof.
  intros pp2 ts ta pa.
  assert (Hk : forall key d, key <> "debt_fraction"%string ->
     key <> "debt_interest_rate"%string -> key <> "debt_tenor_years"%string ->
     pget example_plant key d = pget pp2 key d).
  { intros key d H1 _ H3. unfold pp2. cbn [pget].
    destruct (String.eqb_spec "debt_fraction" key) as [E|_]; [congruence|].
    destruct (String.eqb_spec "debt_tenor_years" key) as [E|_]; [congruence|].
    reflexivity. }
  split; [exact Hk|].
  eexists; eexists. split; [reflexivity|]. split; [reflexivity|].
  match goal with
  | |- free_cash_flow ?c1 = free_cash_flow ?c2 =>
      destruct (fcf_debt_independent example_plant pp2 ts ta pa None 2025 c1 c2 Hk
        eq_refl eq_refl) as [Hf _]
  end.
  exact Hf.
Defined.

(** Extra: every capacity factor of a computed series lies between 0 and
    the water cap (or 0 when the cap is negative). *)
Theorem capacity_factor_bounds (plant_params : Params) (ts : TransitionScenario)
  (ta : TransitionAdjustments) (pa : PhysicalAdjustments)
  (ms : option MarketScenario) (start_year : Z) (cf : CashFlowTimeSeries)
  (H : compute_cashflows_timeseries plant_params ts ta pa ms start_year = Some cf) :
  Forall (fun c => 0 <= c <= Qmax (water_constrained_capacity pa) 0) (cf_capacity_factor cf).
Proof.
  open_cf H. cbn [cf_capacity_factor].
  apply Forall_forall. intros c Hc.
  apply in_map_iff in Hc. destruct Hc as [x [<- Hx]].
  apply in_map_iff in Hx. destruct Hx as [y [<- _]].
  split; [apply Q.le_max_r|].
  apply Q.max_le_compat_r, Q.le_min_r.
Qed.

Lemma capacity_factor_bounds_witness :
  exists cf,
    compute_cashflows_timeseries example_plant {| get_carbon_price := fun _ => 0 |}
      {| capacity_factor := 9 # 10; operating_years := 3 |}
      {| outage_rate := 0; capacity_derate := 0; efficiency_loss := 0;
         water_constrained_capacity := 1 # 2 |} None 2025 = Some cf /\
    Forall (fun c => 0 <= c <= Qmax (1 # 2) 0) (cf_capacity_factor cf).
Proof.
  eexists. split; [reflexivity|].
  match goal with
  | |- Forall _ (cf_capacity_factor ?c) =>
      exact (capacity_factor_bounds example_plant {| get_carbon_price := fun _ => 0 |}
        {| capacity_factor := 9 # 10; operating_years := 3 |}
        {| outage_rate := 0; capacity_derate := 0; efficiency_loss := 0;
           water_constrained_capacity := 1 # 2 |} None 2025 c eq_refl)
  end.
Defined.

(** Extra: the legacy [compute_cashflows] agrees with any year of
    [compute_cashflows_timeseries] (without market scenario) whose carbon
    price is the legacy placeholder 50, when the plant sets no emissions
    rate other than the default 0.95 and the water cap does not bind:
    same revenue, same total costs, same EBITDA. *)
Theorem legacy_matches_timeseries (plant_params : Params) (ts : TransitionScenario)
  (ta : TransitionAdjustments) (pa : PhysicalAdjustments) (start_year : Z)
  (cf : CashFlowTimeSeries)
  (H : compute_cashflows_timeseries plant_params ts ta pa None start_year = Some cf)
  (i : nat) (Hi : (i < operating_years ta)%nat)
  (Hem : pget plant_params "emissions_tCO2_per_mwh" (95 # 100) == 95 # 100)
  (Hcp : get_carbon_price ts (start_year + Z.of_nat i) == 50)
  (Hw : capacity_factor ta * (1 - capacity_derate pa) <= water_constrained_capacity pa) :
  let legacy := compute_cashflows plant_params ta pa in
  nth i (revenue cf) 0 == annual_revenue legacy /\
  nth i (total_costs cf) 0 == annual_costs legacy /\
  nth i (ebitda cf) 0 == cfr_ebitda legacy.
Proof.
  intros legacy. unfold legacy, compute_cashflows.
  cbn [annual_revenue annual_costs cfr_ebitda].
  open_cf H. cbn [revenue total_costs ebitda]. unfold vsub, vadd, vmul.
  rewrite ?nth_vzip by lens'.
  rewrite ?(nth_map_lt _ _ _ 0 0) by lens'.
  rewrite ?(nth_map_lt _ _ _ 0 0%Z) by lens'.
  rewrite ?nth_repeat_lt by exact Hi.
  rewrite ?nth_years by exact Hi.
  rewrite Hem, Hcp, (Q.min_l _ _ Hw), Q.max_comm.
  split; [ring|split; ring].
Qed.

Lemma legacy_matches_timeseries_witness :
  let ts := {| get_carbon_price := fun _ => 50 |} in
  let ta := {| capacity_factor := 1 # 2; operating_years := 3 |} in
  let pa := {| outage_rate := 1 # 20; capacity_derate := 1 # 10; efficiency_loss := 0;
               water_constrained_capacity := 1 |} in
  exists cf,
    compute_cashflows_timeseries example_plant ts ta pa None 2025 = Some cf /\
    (2 < 3)%nat /\
    pget example_plant "emissions_tCO2_per_mwh" (95 # 100) == 95 # 100 /\
    get_carbon_price ts (2025 + Z.of_nat 2) == 50 /\
    capacity_factor ta * (1 - capacity_derate pa) <= water_constrained_capacity pa /\
    nth 2 (ebitda cf) 0 == cfr_ebitda (compute_cashflows example_plant ta pa).
Proof.
  intros ts ta pa.
  eexists. split; [reflexivity|].
  assert (Hw : capacity_factor ta * (1 - capacity_derate pa) <= water_constrained_capacity pa)
    by (apply Qle_bool_imp_le; reflexivity).
  split; [lia|]. split; [reflexivity|]. split; [reflexivity|]. split; [exact Hw|].
  match goal with
  | |- nth 2 (ebitda ?c) 0 == _ =>
      destruct (legacy_matches_timeseries example_plant ts ta pa 2025 c eq_refl 2
        ltac:(unfold ta; simpl; lia) ltac:(reflexivity) ltac:(reflexivity) Hw) as [_ [_ He]]
  end.
  exact He.
Defined.

End CashFlowMoreFacts.

Module MetricsFacts.
Import CashFlow CashFlowAux CashFlowFacts DebtFacts.

Lemma fold_ext_add_fin xs a :
  exists s, fold_left ext_add (map Fin xs) (Fin a) = Fin s /\ s == a + qsum xs.
Proof.
  revert a; induction xs as [|x xs IH]; intros a; simpl.
  - exists a; split; [reflexivity|unfold qsum; simpl; ring].
  - destruct (IH (a + x)) as [s [Hs Hq]]. exists s; split; [exact Hs|].
    rewrite Hq. unfold qsum; simpl. ring.
Qed.

Lemma fold_ext_add_inf xs : fold_left ext_add xs PosInf = PosInf.
Proof. induction xs as [|x xs IH]; [reflexivity|]. simpl. exact IH. Qed.

Lemma fold_ext_min_fin xs a :
  exists m, fold_left ext_min (map Fin xs) (Fin a) = Fin m /\ m <= a /\
    Forall (fun x => m <= x) xs /\ (m == a \/ exists x, In x xs /\ m == x).
Proof.
  revert a; induction xs as [|x xs IH]; intros a; simpl.
  - exists a. split; [reflexivity|]. split; [lra|]. split; [constructor|left; reflexivity].
  - destruct (IH (Qmin a x)) as [m [Hm [Ha [Hall Hor]]]].
    exists m. split; [exact Hm|].
    pose proof (Q.le_min_l a x). pose proof (Q.le_min_r a x).
    split; [lra|]. split; [constructor; [lra|exact Hall]|].
    destruct Hor as [Hor|[y [Hy Hy']]]; [|right; exists y; split; [right; exact Hy|exact Hy']].
    destruct (Q.min_spec a x) as [[_ E]|[_ E]]; rewrite E in Hor.
    + left; exact Hor.
    + right; exists x; split; [left; reflexivity|exact Hor].
Qed.

Lemma fold_ext_min_inf n : fold_left ext_min (repeat PosInf n) PosInf = PosInf.
Proof. induction n as [|n IH]; [reflexivity|]. simpl. exact IH. Qed.

Lemma qsum_lower_bound m xs : Forall (fun x => m <= x) xs -> inject_Z (Z.of_nat (List.length xs)) * m <= qsum xs.
Proof.
  induction 1 as [|x xs Hx _ IH]; unfold qsum in *; simpl.
  - unfold inject_Z. lra.
  - rewrite Zpos_P_of_succ_nat. unfold Z.succ. rewrite inject_Z_plus, Qmult_plus_distr_l.
    assert (inject_Z 1 * m == m) by (unfold inject_Z; ring). lra.
Qed.

Lemma dscr_shape (c : bool) (f : nat -> Q) n :
  map (fun i => if c then Fin (f i) else PosInf) (seq 0 n) =
  if c then map Fin (map f (seq 0 n)) else repeat PosInf n.
Proof.
  destruct c; [rewrite map_map; reflexivity|].
  rewrite map_const, length_seq. reflexivity.
Qed.

(** Open a successful [calculate_metrics]. *)
Ltac open_metrics H :=
  unfold calculate_metrics in H; cbv zeta in H;
  match type of H with
  | (if ?c then None else Some _) = Some _ =>
      let E := fresh "Et" in destruct c eqn:E; [discriminate H|];
      injection H as <-
  end.

(** Extra: the minimum DSCR reported by [calculate_metrics] never exceeds
    the average DSCR: both are finite with min <= avg, or both are
    infinite (no positive debt service). *)
Theorem min_dscr_le_avg (npf_irr : list Q -> option Q) (cashflows : CashFlowTimeSeries)
  (plant_params : Params) (fm : FinancialMetrics)
  (H : calculate_metrics npf_irr cashflows plant_params = Some fm) :
  (exists lo av, min_dscr fm = Fin lo /\ avg_dscr fm = Fin av /\ lo <= av) \/
  (min_dscr fm = PosInf /\ avg_dscr fm = PosInf).
Proof.
  open_metrics H. cbn [min_dscr avg_dscr]. rewrite dscr_shape.
  match goal with
  | |- context [seq 0 ?n] => destruct n as [|k]
  end.
  - left. exists 0, 0. cbn. destruct (qlt _ _); cbn;
      (split; [reflexivity|split; [reflexivity|lra]]).
  - match goal with
    | |- context [if ?c then map Fin _ else _] => destruct c
    end.
    + left. cbn [seq map]. unfold np_min, np_mean.
      match goal with
      | |- context [map Fin (map ?f (seq 1 k))] => set (xs := map f (seq 1 k)); set (x0 := f 0%nat)
      end.
      destruct (fold_ext_min_fin xs x0) as [m [Hm [Hm0 [Hall _]]]].
      cbn [fold_left ext_add]. rewrite Hm.
      destruct (fold_ext_add_fin xs (0 + x0)) as [s [Hs Hq]]. rewrite Hs.
      exists m, (s / inject_Z (Z.of_nat (List.length (Fin x0 :: map Fin xs)))).
      split; [reflexivity|]. split; [reflexivity|].
      cbn [List.length]. rewrite length_map.
      apply Qle_shift_div_l.
      * change 0 with (inject_Z 0). rewrite <- Zlt_Qlt. lia.
      * pose proof (qsum_lower_bound m xs Hall).
        rewrite Nat2Z.inj_succ, <- Z.add_1_r, inject_Z_plus. rewrite Hq.
        unfold inject_Z at 2. lra.
    + right. cbn [repeat]. unfold np_min, np_mean. rewrite fold_ext_min_inf.
      cbn [fold_left ext_add]. rewrite fold_ext_add_inf. split; reflexivity.
Qed.

Lemma min_dscr_le_avg_witness :
  exists fm, calculate_metrics (fun _ => None) level_series metrics_params = Some fm /\
  ((exists lo av, min_dscr fm = Fin lo /\ avg_dscr fm = Fin av /\ lo <= av) \/
   (min_dscr fm = PosInf /\ avg_dscr fm = PosInf)).
Proof.
  eexists. split; [reflexivity|].
  apply (min_dscr_le_avg (fun _ => None) level_series metrics_params). reflexivity.
Defined.

Lemma first_pos_some acc k xs p :
  first_positive_cumsum acc k xs = Some p ->
  exists j, p = (Z.of_nat (k + j) + 1)%Z /\ (j < List.length xs)%nat /\
    0 < acc + qsum (firstn (S j) xs) /\
    forall j', (j' < j)%nat -> acc + qsum (firstn (S j') xs) <= 0.
Proof.
  revert acc k; induction xs as [|x xs IH]; intros acc k H; [discriminate H|].
  cbn [first_positive_cumsum] in H. cbv zeta in H.
  destruct (qlt 0 (acc + x)) eqn:E.
  - injection H as <-. exists 0%nat. split; [rewrite Nat.add_0_r; reflexivity|].
    split; [simpl; lia|]. split; [|intros; lia].
    apply qlt_true in E. unfold qsum; simpl. lra.
  - destruct (IH _ _ H) as [j [Hp [Hj [Hpos Hbefore]]]].
    exists (S j). split; [subst p; rewrite Nat.add_succ_r; reflexivity|].
    split; [simpl; lia|]. split.
    + change (firstn (S (S j)) (x :: xs)) with (x :: firstn (S j) xs).
      unfold qsum in *. cbn [fold_right]. lra.
    + intros [|j'] Hj'.
      * unfold qsum; simpl. apply qlt_false in E. lra.
      * specialize (Hbefore j' ltac:(lia)). unfold qsum in *.
        change (firstn (S (S j')) (x :: xs)) with (x :: firstn (S j') xs).
        cbn [fold_right]. lra.
Qed.

Lemma first_pos_none acc k xs :
  first_positive_cumsum acc k xs = None ->
  forall j, (j < List.length xs)%nat -> acc + qsum (firstn (S j) xs) <= 0.
Proof.
  revert acc k; induction xs as [|x xs IH]; intros acc k H j Hj; [simpl in Hj; lia|].
  cbn [first_positive_cumsum] in H. cbv zeta in H.
  destruct (qlt 0 (acc + x)) eqn:E; [discriminate H|]. apply qlt_false in E.
  destruct j as [|j].
  - unfold qsum; simpl. lra.
  - specialize (IH _ _ H j ltac:(simpl in Hj; lia)).
    change (firstn (S (S j)) (x :: xs)) with (x :: firstn (S j) xs).
    unfold qsum in *. cbn [fold_right]. lra.
Qed.

(** Extra: the payback year of [calculate_metrics] is one plus the first
    index at which the cumulative free cash flow is positive; when there is
    none, every cumulative free cash flow is non-positive. *)
Theorem payback_first_positive (npf_irr : list Q -> option Q) (cashflows : CashFlowTimeSeries)
  (plant_params : Params) (fm : FinancialMetrics)
  (H : calculate_metrics npf_irr cashflows plant_params = Some fm) :
  let fcf := free_cash_flow cashflows in
  (forall p, payback_years fm = Some p ->
     exists j, p = (Z.of_nat j + 1)%Z /\ (j < List.length fcf)%nat /\
       0 < qsum (firstn (S j) fcf) /\
       forall j', (j' < j)%nat -> qsum (firstn (S j') fcf) <= 0) /\
  (payback_years fm = None ->
     forall j, (j < List.length fcf)%nat -> qsum (firstn (S j) fcf) <= 0).
Proof.
  intros fcf. subst fcf. open_metrics H. cbn [payback_years]. split.
  - intros p Hp. destruct (first_pos_some _ _ _ _ Hp) as [j [E [Hj [Hpos Hb]]]].
    exists j. split; [exact E|]. split; [exact Hj|]. split; [lra|].
    intros j' Hj'. specialize (Hb j' Hj'). lra.
  - intros Hn j Hj. pose proof (first_pos_none _ _ _ Hn j Hj). lra.
Qed.

Lemma payback_first_positive_witness :
  exists fm, calculate_metrics (fun _ => None) level_series metrics_params = Some fm /\
  payback_years fm = Some 3%Z /\
  exists j, (3 = Z.of_nat j + 1)%Z /\ (j < 3)%nat /\
       0 < qsum (firstn (S j) (free_cash_flow level_series)) /\
       forall j', (j' < j)%nat -> qsum (firstn (S j') (free_cash_flow level_series)) <= 0.
Proof.
  eexists. split; [reflexivity|]. split; [reflexivity|].
  destruct (payback_first_positive (fun _ => None) level_series metrics_params _ eq_refl)
    as [Hs _].
  exact (Hs 3%Z eq_refl).
Defined.

Lemma qpow_add t a b : qpow t (a + b) == qpow t a * qpow t b.
Proof. induction a as [|a IH]; cbn [qpow Nat.add]; [ring|rewrite IH; ring]. Qed.

Lemma qpow_pos t k : 0 < t -> 0 < qpow t k.
Proof.
  intros Ht. induction k as [|k IH]; cbn [qpow]; [lra|].
  apply Qmult_lt_0_compat; assumption.
Qed.

Lemma npv_from_level r A t xs :
  0 < r -> (forall i, (i < List.length xs)%nat -> nth i xs 0 == A) ->
  npv_from r t xs * (r * qpow (1 + r) (t + List.length xs)) ==
  A * (1 + r) * (qpow (1 + r) (List.length xs) - 1).
Proof.
  intros Hr. revert t; induction xs as [|x xs IH]; intros t Hx.
  - cbn [npv_from List.length qpow]. ring.
  - cbn [npv_from List.length].
    assert (Hx0 : x == A) by exact (Hx 0%nat ltac:(simpl; lia)).
    assert (Hxs : forall i, (i < List.length xs)%nat -> nth i xs 0 == A)
      by (intros i Hi; exact (Hx (S i) ltac:(simpl; lia))).
    specialize (IH (S t) Hxs).
    rewrite qpow_Qpower by lra.
    rewrite Nat.add_succ_r, <- Nat.add_succ_l.
    rewrite qpow_add in IH |- *. cbn [qpow] in IH |- *.
    assert (HP : 0 < qpow (1 + r) t) by (apply qpow_pos; lra).
    set (P := qpow (1 + r) t) in *. set (L := qpow (1 + r) (List.length xs)) in *.
    set (N := npv_from r (S t) xs) in *.
    rewrite Qmult_plus_distr_l.
    setoid_replace (N * (r * ((1 + r) * P * L))) with (A * (1 + r) * (L - 1)) by (rewrite <- IH; ring).
    rewrite Hx0. field. lra.
Qed.

Lemma debt_amount_cds C F r T : debt_amount (calculate_debt_service C F r T) = C * F.
Proof.
  unfold calculate_debt_service. cbv zeta.
  destruct (amortize _ _ _ _ _ _ _). reflexivity.
Qed.

Lemma ads_closed C F r T :
  0 < r -> (1 <= T)%Z ->
  annual_debt_service (calculate_debt_service C F r T) ==
  C * F * qpow (1 + r) (Z.to_nat T) * r / (qpow (1 + r) (Z.to_nat T) - 1).
Proof.
  intros Hr HT.
  assert (Hlt : 1 < qpow (1 + r) (Z.to_nat T)) by (apply qpow_gt1; lra || lia).
  unfold calculate_debt_service. cbv zeta.
  destruct (amortize _ _ _ _ _ _ _). cbn [annual_debt_service].
  unfold npf_pmt.
  destruct (Qeq_bool r 0) eqn:E; [apply Qeq_bool_eq in E; lra|].
  set (n := Z.to_nat T) in *.
  replace T with (Z.of_nat n) by (subst n; lia).
  rewrite qpow_Qpower by lra.
  field. split; lra.
Qed.

Lemma qsum_ones xs : (forall x, In x xs -> x == 1) -> qsum xs == inject_Z (Z.of_nat (List.length xs)).
Proof.
  induction xs as [|x xs IH]; intros Hx; unfold qsum in *; simpl; [reflexivity|].
  rewrite IH by (intros y Hy; apply Hx; right; exact Hy).
  rewrite (Hx x (or_introl eq_refl)).
  rewrite Zpos_P_of_succ_nat. unfold Z.succ. rewrite inject_Z_plus.
  change (inject_Z 1) with 1. ring.
Qed.

(** Extra: when the cash flow available for debt service (EBITDA minus tax
    minus capex) equals the level annual debt service in every year of a
    tenor of at least one year, at a positive interest rate and a positive
    debt amount, [calculate_metrics] reports a minimum and an average DSCR of
    1 and an LLCR of [1 + debt_interest_rate] (numpy's [npv] does not
    discount the first year). *)
Theorem level_cfads_metrics (npf_irr : list Q -> option Q) (cashflows : CashFlowTimeSeries)
  (plant_params : Params) (fm : FinancialMetrics) :
  calculate_metrics npf_irr cashflows plant_params = Some fm ->
  let C := pget plant_params "total_capex_million" 3200 * 1000000 in
  let F := pget plant_params "debt_fraction" (70 # 100) in
  let r := pget plant_params "debt_interest_rate" (5 # 100) in
  let T := py_int (pget plant_params "debt_tenor_years" 20) in
  let A := annual_debt_service (calculate_debt_service C F r T) in
  (1 <= T)%Z -> 0 < r -> 0 < C * F ->
  (Z.to_nat T <= List.length (ebitda cashflows))%nat ->
  (Z.to_nat T <= List.length (tax_expense cashflows))%nat ->
  (Z.to_nat T <= List.length (capex cashflows))%nat ->
  (forall i, (i < Z.to_nat T)%nat ->
     nth i (ebitda cashflows) 0 - nth i (tax_expense cashflows) 0 - nth i (capex cashflows) 0 == A) ->
  llcr fm == 1 + r /\
  exists lo av, min_dscr fm = Fin lo /\ avg_dscr fm = Fin av /\ lo == 1 /\ av == 1.
Proof.
  intros H C F r T A HT Hr HD HlE HlT HlC Hlev.
  open_metrics H. fold C F r T. fold A.
  cbn [llcr min_dscr avg_dscr].
  rewrite debt_amount_cds, (qlt_of_lt 0 (C * F) HD).
  replace (Z.min T (Z.of_nat (List.length (ebitda cashflows)))) with T by lia.
  set (Tn := Z.to_nat T) in *.
  set (L := qpow (1 + r) Tn).
  assert (HL : 1 < L) by (apply qpow_gt1; lra || lia).
  assert (HA : A == C * F * L * r / (L - 1)) by (apply ads_closed; assumption).
  assert (HA0 : 0 < A).
  { rewrite HA. apply Qlt_shift_div_l; [lra|].
    rewrite Qmult_0_l. apply Qmult_lt_0_compat; [|exact Hr].
    apply Qmult_lt_0_compat; [exact HD|lra]. }
  set (cfads := vsub (vsub (ebitda cashflows) (tax_expense cashflows)) (capex cashflows)).
  assert (Hcf : forall i, (i < Tn)%nat -> nth i cfads 0 == A).
  { intros i Hi. subst cfads. unfold vsub.
    rewrite nth_vzip, nth_vzip by (rewrite ?length_vzip; lia).
    apply Hlev; exact Hi. }
  assert (Hlen : List.length (firstn Tn cfads) = Tn).
  { rewrite length_firstn. subst cfads. unfold vsub. rewrite !length_vzip. lia. }
  split.
  - pose proof (npv_from_level r A 0 (firstn Tn cfads) Hr) as Hn.
    rewrite Hlen in Hn. cbn [Nat.add] in Hn. fold L in Hn.
    assert (Hn' : npf_npv r (firstn Tn cfads) == C * F * (1 + r)).
    { apply (Qmult_inj_r _ _ (r * L)); [intros E; apply Qmult_integral in E; lra|].
      unfold npf_npv. rewrite Hn; [|intros i Hi; rewrite nth_firstn;
        destruct (Nat.ltb_spec i Tn); [apply Hcf; lia|lia]].
      rewrite HA. field. lra. }
    rewrite Hn'. set (D := C * F) in *. field. lra.
  - rewrite dscr_shape, (qlt_of_lt 0 A HA0).
    destruct Tn as [|k] eqn:ETn; [lia|].
    cbn [seq map]. unfold np_min, np_mean.
    match goal with
    | |- context [map Fin (map ?f (seq 1 k))] => set (xs := map f (seq 1 k)); set (x0 := f 0%nat)
    end.
    assert (Hx0 : x0 == 1).
    { subst x0. cbv beta. rewrite (Hcf 0%nat ltac:(lia)). field. lra. }
    assert (Hxs : forall x, In x xs -> x == 1).
    { intros x Hx. subst xs. apply in_map_iff in Hx. destruct Hx as [j [<- Hj]].
      apply in_seq in Hj. cbv beta. rewrite (Hcf j ltac:(lia)). field. lra. }
    destruct (fold_ext_min_fin xs x0) as [m [Hm [_ [_ Hor]]]].
    cbn [fold_left ext_add]. rewrite Hm.
    destruct (fold_ext_add_fin xs (0 + x0)) as [s [Hs Hq]]. rewrite Hs.
    eexists; eexists. split; [reflexivity|]. split; [reflexivity|]. split.
    + destruct Hor as [E|[x [Hx E]]]; rewrite E; [exact Hx0|exact (Hxs x Hx)].
    + cbn [List.length]. rewrite length_map.
      assert (Hlk : List.length xs = k) by (subst xs; rewrite length_map, length_seq; reflexivity).
      rewrite Hq, Hx0, qsum_ones by exact Hxs. rewrite Hlk.
      rewrite Nat2Z.inj_succ, <- Z.add_1_r, inject_Z_plus.
      change (inject_Z 1) with 1.
      assert (0 <= inject_Z (Z.of_nat k)) by (change 0 with (inject_Z 0); rewrite <- Zle_Qle; lia).
      field. lra.
Qed.

Lemma level_cfads_metrics_witness :
  exists fm, calculate_metrics (fun _ => None) level_series metrics_params = Some fm /\
  llcr fm == 1 + (5 # 100) /\
  exists lo av, min_dscr fm = Fin lo /\ avg_dscr fm = Fin av /\ lo == 1 /\ av == 1.
Proof.
  eexists. split; [reflexivity|].
  refine (level_cfads_metrics (fun _ => None) level_series metrics_params _ eq_refl
    ltac:(vm_compute; discriminate) ltac:(reflexivity) ltac:(reflexivity)
    ltac:(vm_compute; lia) ltac:(vm_compute; lia) ltac:(vm_compute; lia) _).
  intros i Hi. destruct i as [|[|i]]; [vm_compute; reflexivity|vm_compute; reflexivity|].
  vm_compute in Hi. lia.
Defined.

End MetricsFacts.

Module CarbonPricingMoreFacts.
Import Sorted CarbonPricing CarbonPricingFacts CashFlowAux DebtFacts.

Lemma insert_Z_In x y ys : y = x \/ In y ys -> In y (insert_Z x ys).
Proof.
  induction ys as [|y' ys IH]; simpl; [intros [->|[]]; left; reflexivity|].
  destruct (x <=? y')%Z; simpl; intuition.
Qed.

Lemma sort_Z_In y xs : In y xs -> In y (sort_Z xs).
Proof.
  induction xs as [|x xs IH]; simpl; [tauto|].
  intros H. apply insert_Z_In. intuition.
Qed.

Lemma insert_Z_sorted x ys :
  StronglySorted Z.le ys -> StronglySorted Z.le (insert_Z x ys).
Proof.
  induction 1 as [|y ys Hs IH Hf]; simpl.
  - repeat constructor.
  - destruct (Z.leb_spec x y).
    + constructor; [constructor; assumption|].
      constructor; [assumption|].
      eapply Forall_impl; [|exact Hf]. intros a Ha; lia.
    + constructor; [exact IH|]. apply Forall_forall. intros a Ha.
      apply In_insert_Z in Ha. destruct Ha as [->|Ha]; [lia|].
      rewrite Forall_forall in Hf. exact (Hf a Ha).
Qed.

Lemma sort_Z_sorted xs : StronglySorted Z.le (sort_Z xs).
Proof.
  induction xs as [|x xs IH]; simpl; [constructor|]. apply insert_Z_sorted, IH.
Qed.

Lemma sorted_le_last y l d :
  StronglySorted Z.le l -> In y l -> (y <= last l d)%Z.
Proof.
  induction 1 as [|a l Hs IH Hf]; [intros []|].
  intros [Hy|Hy]; [subst y|].
  - destruct l as [|b l]; [simpl; lia|].
    assert (HIn : In (last (b :: l) d) (b :: l)) by apply last_In_cons.
    rewrite Forall_forall in Hf. specialize (Hf _ HIn).
    change (last (a :: b :: l) d) with (last (b :: l) d). exact Hf.
  - destruct l as [|b l]; [destruct Hy|].
    change (last (a :: b :: l) d) with (last (b :: l) d). exact (IH Hy).
Qed.

(** The interpolation loop on a sorted list of keys, at one of the keys. *)
Lemma interp_loop_key traj year ys d :
  StronglySorted Z.le ys -> In year ys ->
  (forall y, In y ys -> In y (map fst traj)) ->
  exists q p, interp_loop traj year ys (lookup traj (last ys d)) = Some q /\
            lookup traj year = Some p /\ q == p.
Proof.
  induction 1 as [|y0 ys Hs IH Hf]; [intros []|]. intros Hin Hkeys.
  destruct ys as [|y1 rest].
  - destruct Hin as [Hy|[]]; subst y0. simpl.
    destruct (lookup_some traj year (Hkeys year (or_introl eq_refl))) as [p Hp].
    exists p, p; split; [exact Hp|split; [exact Hp|reflexivity]].
  - cbn [interp_loop].
    inversion Hs as [|? ? Hs' Hf1]; subst.
    rewrite Forall_forall in Hf, Hf1.
    assert (Hy01 : (y0 <= y1)%Z) by (apply Hf; left; reflexivity).
    destruct (lookup_some traj y0 (Hkeys y0 (or_introl eq_refl))) as [p0 Hp0].
    destruct (lookup_some traj y1 (Hkeys y1 (or_intror (or_introl eq_refl)))) as [p1 Hp1].
    destruct ((y0 <=? year)%Z && (year <=? y1)%Z) eqn:Ec.
    + apply andb_true_iff in Ec. destruct Ec as [E0 E1].
      apply Z.leb_le in E0. apply Z.leb_le in E1.
      rewrite Hp0, Hp1.
      destruct (Z.eq_dec year y0) as [->|Hne0].
      * exists (p0 + inject_Z (y0 - y0) / inject_Z (y1 - y0) * (p1 - p0)), p0.
        split; [reflexivity|]. split; [exact Hp0|].
        rewrite Z.sub_diag. unfold Qdiv. rewrite Qmult_0_l. ring.
      * assert (year = y1).
        { destruct Hin as [H|[H|Hr]]; [lia|lia|].
          specialize (Hf1 _ Hr). lia. }
        subst year.
        exists (p0 + inject_Z (y1 - y0) / inject_Z (y1 - y0) * (p1 - p0)), p1.
        split; [reflexivity|]. split; [exact Hp1|].
        assert (Hd : ~ inject_Z (y1 - y0) == 0).
        { change 0 with (inject_Z 0). rewrite inject_Z_injective. lia. }
        field. exact Hd.
    + destruct Hin as [H|Hin].
      * subst y0. apply andb_false_iff in Ec. destruct Ec as [E|E]; apply Z.leb_gt in E; lia.
      * apply IH; [exact Hin|]. intros y Hy. apply Hkeys. right; exact Hy.
Qed.

(** Extra: at a year stored in the price trajectory, [get_carbon_price]
    returns the stored price (the first entry for that year), whatever
    the order of the trajectory: below the first year, at the last year
    (extrapolation over zero years) and inside the interpolation loop
    (weight 0 or 1). *)
Theorem price_at_anchor_year (rpow : Q -> Q -> Q) (s : CarbonPricingScenario) (year : Z) (p : Q)
  (H : lookup (price_trajectory s) year = Some p) :
  exists q, get_carbon_price rpow s year = Some q /\ q == p.
Proof.
  unfold get_carbon_price, get_carbon_price_traj.
  set (traj := price_trajectory s) in *.
  assert (Hk : In year (map fst traj)).
  { apply lookup_In in H. apply in_map_iff. exists (year, p). split; [reflexivity|exact H]. }
  destruct traj as [|e tl] eqn:Etraj; [discriminate H|].
  rewrite <- Etraj in *.
  pose proof (sort_Z_sorted (map fst traj)) as Hsort.
  assert (Hin : In year (sort_Z (map fst traj))) by (apply sort_Z_In; exact Hk).
  assert (Hkeys : forall y, In y (sort_Z (map fst traj)) -> In y (map fst traj))
    by (intros y; apply In_sort_Z).
  destruct (sort_Z (map fst traj)) as [|first rest] eqn:Ey; [destruct Hin|].
  inversion Hsort as [|? ? Hs' Hf]; subst. rewrite Forall_forall in Hf.
  assert (Hfirst : (first <= year)%Z).
  { destruct Hin as [Hy|Hy]; [lia|exact (Hf _ Hy)]. }
  assert (Hlast : (year <= last (first :: rest) first)%Z)
    by (apply sorted_le_last; assumption).
  destruct (year <=? first)%Z eqn:E1.
  - apply Z.leb_le in E1. replace first with year by lia.
    exists p. split; [exact H|reflexivity].
  - destruct (last (first :: rest) first <=? year)%Z eqn:E2.
    + apply Z.leb_le in E2.
      set (ly := last (first :: rest) first) in *.
      assert (Hly : ly = year) by lia. rewrite Hly.
      destruct (2 <=? List.length (first :: rest))%nat eqn:E3.
      * apply Nat.leb_le in E3.
        set (y1 := nth (List.length (first :: rest) - 2) (first :: rest) first).
        assert (Hy1 : In y1 (first :: rest)) by (apply nth_In; lia).
        destruct (lookup_some traj y1 (Hkeys y1 Hy1)) as [p1 Hp1].
        rewrite Hp1, H.
        destruct (qlt 0 p1).
        -- eexists; split; [reflexivity|].
           rewrite Z.sub_diag. simpl. ring.
        -- exists p. split; reflexivity.
      * exists p. split; [exact H|reflexivity].
    + destruct (interp_loop_key traj year (first :: rest) first Hsort Hin Hkeys)
        as [q [p' [Hq [Hp' Hqp]]]].
      rewrite H in Hp'. injection Hp' as <-.
      exists q. split; [exact Hq|exact Hqp].
Qed.

Lemma price_at_anchor_year_witness :
  let s := {| cp_name := "sample"; price_trajectory := [(2030%Z, 50); (2024%Z, 10); (2040%Z, 100)];
              description := ""; source := ""; includes_ets := true;
              includes_carbon_tax := false |} in
  lookup (price_trajectory s) 2030 = Some 50 /\
  exists q, get_carbon_price (fun _ _ => 0) s 2030 = Some q /\ q == 50.
Proof.
  intros s. split; [reflexivity|].
  apply (price_at_anchor_year (fun _ _ => 0) s 2030 50). reflexivity.
Defined.

Lemma qpow_ge1 t k : 1 <= t -> 1 <= qpow t k.
Proof.
  intros Ht. induction k as [|k IH]; cbn [qpow]; [lra|].
  assert (0 <= t - 1) by lra. assert (0 <= qpow t k - 1) by lra.
  assert (0 <= (t - 1) * (qpow t k - 1)) by (apply Qmult_le_0_compat; assumption).
  nra.
Qed.

Lemma discount_ge1 r t : 0 <= r -> (0 <= t)%Z -> 1 <= (1 + r) ^ t.
Proof.
  intros Hr Ht. rewrite <- (Z2Nat.id t) by exact Ht.
  rewrite qpow_Qpower by lra. apply qpow_ge1. lra.
Qed.

Lemma cumulative_loop_bounds rpow s emis r start k :
  forall year tu tn,
  0 <= r -> 0 <= emis -> (start <= year)%Z -> 0 <= tn -> tn <= tu ->
  (forall j, (j < k)%nat ->
     exists p, get_carbon_price rpow s (year + Z.of_nat j) = Some p /\ 0 <= p) ->
  exists tu' tn', cumulative_loop rpow s emis r start year k tu tn = Some (tu', tn') /\
    0 <= tn' /\ tn' <= tu'.
Proof.
  induction k as [|k IH]; intros year tu tn Hr He Hy Htn Htu Hp.
  - exists tu, tn. split; [reflexivity|]. split; assumption.
  - cbn [cumulative_loop].
    destruct (Hp 0%nat ltac:(lia)) as [p [Ep Hp0]]. rewrite Z.add_0_r in Ep. rewrite Ep.
    assert (Hd : 1 <= (1 + r) ^ (year - start)) by (apply discount_ge1; [lra|lia]).
    destruct (Qeq_bool ((1 + r) ^ (year - start)) 0) eqn:Eq0;
      [apply Qeq_bool_eq in Eq0; lra|].
    set (d := (1 + r) ^ (year - start)) in *.
    assert (Hc : 0 <= emis * p) by (apply Qmult_le_0_compat; assumption).
    assert (Hc1 : 0 <= emis * p / d) by (apply Qle_shift_div_l; lra).
    assert (Hc2 : emis * p / d <= emis * p).
    { apply Qle_shift_div_r; [lra|]. nra. }
    apply IH; try lra; [lia|].
    intros j Hj. destruct (Hp (S j) ltac:(lia)) as [p' [Ep' Hp']].
    exists p'. split; [|exact Hp'].
    rewrite <- Ep'. f_equal. lia.
Qed.

(** Extra: for a non-negative discount rate, non-negative emissions and
    a non-empty year range on which every carbon price is defined and
    non-negative, [calculate_cumulative_carbon_cost] returns a discounted
    total between 0 and the undiscounted total, and an average annual cost
    that times the number of years is the undiscounted total. *)
Theorem cumulative_cost_bounds (rpow : Q -> Q -> Q) (s : CarbonPricingScenario)
  (annual_emissions_tco2 : Q) (start_year end_year : Z) (discount_rate : Q)
  (Hr : 0 <= discount_rate) (He : 0 <= annual_emissions_tco2)
  (Hyears : (start_year <= end_year)%Z)
  (Hp : forall y, (start_year <= y <= end_year)%Z ->
     exists p, get_carbon_price rpow s y = Some p /\ 0 <= p) :
  exists c, calculate_cumulative_carbon_cost rpow s annual_emissions_tco2 start_year end_year
              discount_rate = Some c /\
    0 <= cumulative_npv c /\ cumulative_npv c <= cumulative_undiscounted c /\
    avg_annual_cost c * inject_Z (end_year - start_year + 1) == cumulative_undiscounted c.
Proof.
  unfold calculate_cumulative_carbon_cost.
  destruct (cumulative_loop_bounds rpow s annual_emissions_tco2 discount_rate start_year
              (Z.to_nat (end_year + 1 - start_year)) start_year 0 0 Hr He
              ltac:(lia) ltac:(lra) ltac:(lra)) as [tu [tn [Hl [H0 H1]]]].
  { intros j Hj. apply Hp. lia. }
  rewrite Hl.
  destruct (end_year - start_year + 1 =? 0)%Z eqn:E; [apply Z.eqb_eq in E; lia|].
  eexists. split; [reflexivity|]. cbn [cumulative_npv cumulative_undiscounted avg_annual_cost].
  split; [exact H0|]. split; [exact H1|].
  field. change 0 with (inject_Z 0). rewrite inject_Z_injective. lia.
Qed.

Lemma cumulative_cost_bounds_witness :
  exists c, calculate_cumulative_carbon_cost (fun _ _ => 0) create_no_policy_baseline 1000
              2024 2030 (8 # 100) = Some c /\
    0 <= cumulative_npv c /\ cumulative_npv c <= cumulative_undiscounted c /\
    avg_annual_cost c * inject_Z (2030 - 2024 + 1) == cumulative_undiscounted c.
Proof.
  apply (cumulative_cost_bounds (fun _ _ => 0) create_no_policy_baseline 1000 2024 2030 (8 # 100));
    [discriminate|discriminate|discriminate|].
  intros y Hy. exists 0. split; [|apply Qle_refl].
  assert (y = 2024 \/ y = 2025 \/ y = 2026 \/ y = 2027 \/ y = 2028 \/ y = 2029 \/ y = 2030)%Z
    as Hc by lia.
  repeat destruct Hc as [->|Hc]; [..|subst y]; vm_compute; reflexivity.
Defined.

End CarbonPricingMoreFacts.

Module RunnerMoreFacts.
Import Runner RunnerAux.

(** Extra: a transition scenario returned by [_load_transition_scenario]
    carries the requested name and the row's [carbon_scenario] cell, and
    it is linked to a carbon pricing scenario exactly when that cell is a
    non-empty name of the runner's carbon catalog, to that catalog entry:
    an unknown carbon scenario name is silently left unlinked. *)
Theorem transition_carbon_link (py_float : string -> option Q)
  (self : CRPModelRunner) (name : string) (ts : TransitionScenario)
  (H : _load_transition_scenario py_float self name = Ok ts) :
  ts_name ts = name /\
  exists row, dict_get (policy_scenarios self) name = Some row /\ row <> [] /\
    carbon_scenario_name ts = dict_get row "carbon_scenario" /\
    (forall c, carbon_scenario ts = Some c <->
       exists n, dict_get row "carbon_scenario" = Some n /\ n <> ""%string /\
                 dict_get (carbon_scenarios self) n = Some c).
Proof.
  unfold _load_transition_scenario in H.
  destruct (dict_get (policy_scenarios self) name) as [[|c row]|]; try discriminate H.
  remember (c :: row) as r eqn:Er.
  destruct (cell_float py_float r "dispatch_penalty" 0);
  destruct (cell_float py_float r "retirement_years" 40);
  destruct (cell_float py_float r "carbon_price_2025" 0);
  destruct (cell_float py_float r "carbon_price_2030" 0);
  destruct (cell_float py_float r "carbon_price_2040" 0);
  destruct (cell_float py_float r "carbon_price_2050" 0);
  try discriminate H.
  injection H as <-. cbn [ts_name carbon_scenario_name carbon_scenario].
  split; [reflexivity|]. exists r.
  split; [reflexivity|]. split; [subst r; discriminate|]. split; [reflexivity|].
  intros cs. destruct (dict_get r "carbon_scenario") as [n|].
  - destruct (String.eqb_spec n "") as [->|Hn]; cbn [negb].
    + split; [discriminate|]. intros [n' [E [Hn' _]]]. injection E as <-. contradiction.
    + split.
      * intros Hc. exists n. split; [reflexivity|]. split; assumption.
      * intros [n' [E [_ Hc]]]. injection E as <-. exact Hc.
  - split; [discriminate|]. intros [n' [E _]]. discriminate E.
Qed.

Lemma transition_carbon_link_witness :
  let self := {| policy_scenarios :=
                   [("net_zero", [("carbon_scenario", "eu_ets"); ("retirement_years", "30")])];
                 physical_risks := []; climada_hazards := [];
                 carbon_scenarios := [] |}%string in
  exists ts, _load_transition_scenario (fun _ => Some 30) self "net_zero" = Ok ts /\
  ts_name ts = "net_zero"%string /\
  exists row, dict_get (policy_scenarios self) "net_zero" = Some row /\ row <> [] /\
    carbon_scenario_name ts = dict_get row "carbon_scenario" /\
    (forall c, carbon_scenario ts = Some c <->
       exists n, dict_get row "carbon_scenario" = Some n /\ n <> ""%string /\
                 dict_get (carbon_scenarios self) n = Some c).
Proof.
  intros self. eexists. split; [reflexivity|].
  apply (transition_carbon_link (fun _ => Some 30) self "net_zero"). reflexivity.
Defined.

End RunnerMoreFacts.
